(** * bamboo_api: the Bamboo web-service client, embedded and verified

    A shallow embedding of [bamboo_api/api.py] (class [BambooAPIClient]).
    Python values, the HTTP session and the parsed HTML tree are modelled
    as data; generators are modelled by the trace of what they do when
    they are iterated to the end: the requests they issue, the items they
    yield, and how they finish. *)

From stdpp Require Import gmap strings list pretty.
From Stdlib Require Import ZArith Lia Ascii.

Local Open Scope string_scope.
Local Open Scope Z_scope.
Local Open Scope list_scope.
Local Set Warnings "-register-all".

(** ** Python values and exceptions *)

(** The exceptions the client can end with.  [PyException] is the bare
    [Exception(res.reason)] of the request primitives; [ValueError] keeps
    the argument tuple it was built with. *)
Inductive exn :=
  | PyException (reason : string)
  | ValueError (args : list string)
  | JSONDecodeError
  | KeyError (key : string)
  | TypeError
  | IndexError.

Inductive result (A : Type) :=
  | Ok (a : A)
  | Raise (e : exn).
Arguments Ok {A} a.
Arguments Raise {A} e.

Definition rbind {A B} (r : result A) (k : A → result B) : result B :=
  match r with
  | Ok a => k a
  | Raise e => Raise e
  end.

(** A decoded JSON document, as [Response.json()] hands it over.  Numbers
    are integers; an object is the association list of its members. *)
Inductive json :=
  | JNull
  | JBool (b : bool)
  | JNum (z : Z)
  | JStr (s : string)
  | JArr (l : list json)
  | JObj (members : list (string * json)).

Fixpoint assoc {A} (k : string) (l : list (string * A)) : option A :=
  match l with
  | [] => None
  | (k', v) :: l' => if decide (k = k') then Some v else assoc k l'
  end.

(** [v[k]] on a decoded document. *)
Definition getitem (v : json) (k : string) : result json :=
  match v with
  | JObj ms => match assoc k ms with Some x => Ok x | None => Raise (KeyError k) end
  | _ => Raise TypeError
  end.

(** The integer a value stands for in [<] and [+=] against an int
    ([True] and [False] are the ints 1 and 0). *)
Definition as_int (v : json) : result Z :=
  match v with
  | JNum z => Ok z
  | JBool b => Ok (if b then 1 else 0)
  | _ => Raise TypeError
  end.

(** Truth value, as [while size:] tests it. *)
Definition truthy (v : json) : bool :=
  match v with
  | JNull => false
  | JBool b => b
  | JNum z => negb (Z.eqb z 0)
  | JStr s => negb (String.eqb s "")
  | JArr l => match l with [] => false | _ => true end
  | JObj l => match l with [] => false | _ => true end
  end.

Fixpoint chars (s : string) : list string :=
  match s with
  | EmptyString => []
  | String a s' => String a EmptyString :: chars s'
  end.

(** What [for r in v] runs through. *)
Definition py_iter (v : json) : result (list json) :=
  match v with
  | JArr l => Ok l
  | JStr s => Ok (JStr <$> chars s)
  | JObj ms => Ok ((λ kv, JStr kv.1) <$> ms)
  | _ => Raise TypeError
  end.

(** [l[i]] on a list, negative indices counting from the end. *)
Definition py_index {A} (l : list A) (i : Z) : result A :=
  let j := if Z.leb 0 i then i else Z.of_nat (length l) + i in
  if Z.ltb j 0 then Raise IndexError
  else match l !! Z.to_nat j with
       | Some x => Ok x
       | None => Raise IndexError
       end.

(** [sep.join(l)] *)
Fixpoint str_join (sep : string) (l : list string) : string :=
  match l with
  | [] => ""
  | [x] => x
  | x :: l' => x +:+ sep +:+ str_join sep l'
  end.

(** ** The HTTP session *)

Inductive verb := GET | POST | PUT.

(** A value of the query-string dict. *)
Inductive qsval :=
  | QInt (z : Z)
  | QStr (s : string)
  | QBool (b : bool).

Record request := {
  meth : verb;
  url : string;
  params : gmap string qsval;
  headers : list (string * string);
  data : gmap string string
}.

Record response := {
  status_code : Z;
  reason : string;
  text : string;
  json_body : option json   (* [None]: the body does not decode *)
}.

(** The session together with the server behind it: the answer to the
    [n]-th request of an iteration ([n] counts the requests issued before
    it), so that a server may answer the same request differently later. *)
Definition session := nat → request → response.

Definition accept_json : list (string * string) := [("Accept", "application/json")].

(** [params or {}] *)
Definition or_empty {V} (m : option (gmap string V)) : gmap string V :=
  default ∅ m.

Definition get_request (u : string) (ps : option (gmap string qsval)) : request :=
  {| meth := GET; url := u; params := or_empty ps; headers := accept_json; data := ∅ |}.

Definition post_request (u : string) (ps : option (gmap string qsval))
    (d : option (gmap string string)) : request :=
  {| meth := POST; url := u; params := or_empty ps; headers := accept_json;
     data := or_empty d |}.

Definition put_request (u : string) (ps : option (gmap string qsval)) : request :=
  {| meth := PUT; url := u; params := or_empty ps; headers := accept_json; data := ∅ |}.

Definition check_status (res : response) : result response :=
  if decide (status_code res ≠ 200) then Raise (PyException (reason res)) else Ok res.

Definition _get_response (sess : session) (n : nat) (u : string)
    (ps : option (gmap string qsval)) : result response :=
  let res := sess n (get_request u ps) in
  check_status res.

Definition _post_response (sess : session) (n : nat) (u : string)
    (ps : option (gmap string qsval)) (d : option (gmap string string)) : result response :=
  let res := sess n (post_request u ps d) in
  check_status res.

Definition _put_response (sess : session) (n : nat) (u : string)
    (ps : option (gmap string qsval)) : result response :=
  let res := sess n (put_request u ps) in
  check_status res.

(** [Response.json()] *)
Definition json_of (res : response) : result json :=
  match json_body res with
  | Some j => Ok j
  | None => Raise JSONDecodeError
  end.

(** ** The client: connection data and URLs *)

Definition DEFAULT_HOST := "http://localhost".
Definition DEFAULT_PORT := 8085.

Definition BUILD_SERVICE := "/rest/api/latest/result".
Definition PROJECT_SERVICE := "rest/api/latest/project".
Definition DEPLOY_SERVICE := "/rest/api/latest/deploy/project".
Definition PLAN_SERVICE := "/rest/api/latest/plan".
Definition QUEUE_SERVICE := "/rest/api/latest/queue".
Definition RESULT_SERVICE := "/rest/api/latest/result".
Definition SERVER_SERVICE := "/rest/api/latest/server".
Definition BFL_ACTION := "/build/label/viewBuildsForLabel.action".
Definition DELETE_ACTION := "/chain/admin/deleteChain!doDelete.action".

(** The three templates, with their placeholders filled in by [format]. *)
Definition ENVIRONMENT_SERVICE (env_id : string) :=
  "/rest/api/latest/deploy/environment/" +:+ env_id +:+ "/results".
Definition BRANCH_SERVICE (key : string) := PLAN_SERVICE +:+ "/" +:+ key +:+ "/branch".
Definition BRANCH_RESULT_SERVICE (key branch_name : string) :=
  RESULT_SERVICE +:+ "/" +:+ key +:+ "/branch/" +:+ branch_name.

Record client := {
  _host : string;
  _port : Z;
  _prefix : string;
  _auth : option (string * string)
}.

(** [x or d] on an optional string: [None] and [''] both give [d]. *)
Definition str_or (x : option string) (d : string) : string :=
  match x with
  | Some s => if decide (s = "") then d else s
  | None => d
  end.

Definition int_or (x : option Z) (d : Z) : Z :=
  match x with
  | Some z => if decide (z = 0) then d else z
  | None => d
  end.

Definition __init__ (host : option string) (port : option Z)
    (user password prefix : option string) : client :=
  {| _host := str_or host DEFAULT_HOST;
     _port := int_or port DEFAULT_PORT;
     _prefix := str_or prefix "";
     _auth := match user, password with
              | Some u, Some p =>
                  if decide (u ≠ "" ∧ p ≠ "") then Some (u, p) else None
              | _, _ => None
              end |}.

(** ['{}:{}{}{}'.format(host, port, prefix, endpoint)] *)
Definition _get_url (c : client) (endpoint : string) : string :=
  _host c +:+ ":" +:+ pretty (_port c) +:+ _prefix c +:+ endpoint.


(** ** The expand allow-list *)

Definition allow_list : list string :=
  ["artifacts"; "comments"; "labels"; "jiraIssues"; "stages";
   "stages.stage"; "stages.stage.results"; "stages.stage.results.result"].

Definition valid_expands : gset string := list_to_set allow_list.

(** [set(expand) & valid_expands] is a set: the order in which [map] runs
    through it is whatever the set's enumeration gives ([elements]). *)
Definition _build_expand (expand : list string) : string :=
  let expands := (λ x, str_join "." ["results.result"; x])
                   <$> elements (list_to_set expand ∩ valid_expands) in
  str_join "," expands.

(** ** Generators

    A generator is modelled by what iterating it to the end does: the
    sequence of requests issued and items yielded, and the way it ends.
    The [while] loops take fuel; [OutOfFuel] is the only outcome that is
    not an outcome of the Python code. *)

Inductive event (A : Type) :=
  | Request (r : request)
  | Yield (a : A).
Arguments Request {A} r.
Arguments Yield {A} a.

Inductive outcome :=
  | Done
  | Raised (e : exn)
  | OutOfFuel.

Record run (A : Type) := Run {
  events : list (event A);
  outcome_of : outcome
}.
Arguments Run {A} events outcome_of.
Arguments events {A} r.
Arguments outcome_of {A} r.

Definition finish {A} (o : outcome) : run A := Run [] o.

Definition emit {A} (es : list (event A)) (r : run A) : run A :=
  Run (es ++ events r) (outcome_of r).

Definition attempt {A B} (r : result A) (k : A → run B) : run B :=
  match r with
  | Ok a => k a
  | Raise e => finish (Raised e)
  end.

Notation "'let?' x ':=' r 'in' k" := (attempt r (λ x, k))
  (at level 10, x name, r at level 100, k at level 200).

(** The requests issued and the items yielded, in order. *)
Definition requests {A} (r : run A) : list request :=
  omap (λ e, match e with Request q => Some q | Yield _ => None end) (events r).

Definition yielded {A} (r : run A) : list A :=
  omap (λ e, match e with Yield a => Some a | Request _ => None end) (events r).

(** ** The query-string dict *)

(** [qs[k]] where an int is expected. *)
Definition qs_int (qs : gmap string qsval) (k : string) : result Z :=
  match qs !! k with
  | Some (QInt z) => Ok z
  | Some _ => Raise TypeError
  | None => Raise (KeyError k)
  end.

(** [{'max-result': max_result, 'start-index': 0}] *)
Definition base_qs (max_result : Z) : gmap string qsval :=
  {[ "max-result" := QInt max_result; "start-index" := QInt 0 ]}.

(** [if x: qs[k] = f(x)] for an optional list argument: [None] and [[]]
    leave the dict alone. *)
Definition set_if_list (k : string) (x : option (list string))
    (f : list string → string) (qs : gmap string qsval) : gmap string qsval :=
  match x with
  | Some (y :: l) => <[k := QStr (f (y :: l))]> qs
  | _ => qs
  end.

Definition set_if (k : string) (b : bool) (v : qsval)
    (qs : gmap string qsval) : gmap string qsval :=
  if b then <[k := v]> qs else qs.

(** Truth value of an optional string argument. *)
Definition str_truthy (x : option string) : bool :=
  match x with
  | Some s => negb (String.eqb s "")
  | None => false
  end.

(** ** Pagination: the index-bounded loop

    [get_environment_results], [get_plans], [get_branches], [get_results]
    and [get_branch_results] run the same loop; they differ in where the
    envelope sits in the response ([outer]) and in the key of its item
    list ([items_key]). *)

Definition envelope_of (outer : option string) (response : json) : result json :=
  match outer with
  | Some k => getitem response k
  | None => Ok response
  end.

Fixpoint index_bounded (fuel : nat) (sess : session) (u : string)
    (outer : option string) (items_key : string)
    (n : nat) (qs : gmap string qsval) (size : json) : run json :=
  let? start := qs_int qs "start-index" in
  let? sz := as_int size in
  if decide (start < sz) then
    match fuel with
    | O => finish OutOfFuel
    | S fuel' =>
        emit [Request (get_request u (Some qs))] (
          let? res := _get_response sess n u (Some qs) in
          let? response := json_of res in
          let? env := envelope_of outer response in
          let? size' := getitem env "size" in
          let? items := rbind (getitem env items_key) py_iter in
          emit (Yield <$> items) (
            let? step := rbind (getitem env "max-result") as_int in
            index_bounded fuel' sess u outer items_key (S n)
              (<["start-index" := QInt (start + step)]> qs) size'))
    end
  else finish Done.

(** ** Pagination: the loop of [get_builds] *)

Fixpoint builds_loop (fuel : nat) (sess : session) (u : string)
    (n : nat) (qs : gmap string qsval) (size : json) : run json :=
  if truthy size then
    match fuel with
    | O => finish OutOfFuel
    | S fuel' =>
        emit [Request (get_request u (Some qs))] (
          let? res := _get_response sess n u (Some qs) in
          let? response := json_of res in
          let? results := getitem response "results" in
          let? size' := getitem results "size" in
          let? echoed := rbind (getitem results "start-index") as_int in
          let? start := qs_int qs "start-index" in
          if decide (echoed < start) then finish Done
          else
            let? items := rbind (getitem results "result") py_iter in
            emit (Yield <$> items) (
              let? step := as_int size' in
              builds_loop fuel' sess u (S n)
                (<["start-index" := QInt (start + step)]> qs) size'))
    end
  else finish Done.

(** ** The paginated methods *)

Definition get_builds (c : client) (sess : session) (plan_key : option string)
    (labels expand : option (list string)) (max_result : Z) (fuel : nat) : run json :=
  let qs := base_qs max_result in
  let qs := set_if_list "expand" expand _build_expand qs in
  let qs := set_if_list "label" labels (str_join ",") qs in
  let u := if str_truthy plan_key
           then _get_url c BUILD_SERVICE +:+ "/" +:+ default "" plan_key
           else _get_url c BUILD_SERVICE in
  builds_loop fuel sess u 0 qs (JNum 1).

Definition get_environment_results (c : client) (sess : session)
    (environment_id : Z) (max_result : Z) (fuel : nat) : run json :=
  let qs := base_qs max_result in
  let u := _get_url c (ENVIRONMENT_SERVICE (pretty environment_id)) in
  index_bounded fuel sess u None "results" 0 qs (JNum 1).

Definition get_plans (c : client) (sess : session)
    (expand : option (list string)) (max_result : Z) (fuel : nat) : run json :=
  let qs := base_qs max_result in
  let qs := set_if_list "expand" expand _build_expand qs in
  let u := _get_url c PLAN_SERVICE in
  index_bounded fuel sess u (Some "plans") "plan" 0 qs (JNum 1).

Definition get_branches (c : client) (sess : session) (plan_key : string)
    (enabled_only : bool) (max_result : Z) (fuel : nat) : run json :=
  let qs := base_qs max_result in
  let qs := set_if "enabledOnly" enabled_only (QStr "true") qs in
  let u := _get_url c (BRANCH_SERVICE plan_key) in
  index_bounded fuel sess u (Some "branches") "branch" 0 qs (JNum 1).

(** The URL of [get_results]: [build_number] is appended to [plan_key]
    when both are given ([+] on strings); then [plan_key or 'all']. *)
Definition get_results_url (c : client) (plan_key build_number : option string) : string :=
  let plan_key := match build_number, plan_key with
                  | Some b, Some k => Some (k +:+ "-" +:+ b)
                  | _, _ => plan_key
                  end in
  _get_url c RESULT_SERVICE +:+ "/" +:+ str_or plan_key "all".

Definition get_results (c : client) (sess : session)
    (plan_key build_number : option string)
    (expand : option (list string)) (max_result : Z) (fuel : nat) : run json :=
  let qs := base_qs max_result in
  let qs := set_if_list "expand" expand _build_expand qs in
  let u := get_results_url c plan_key build_number in
  index_bounded fuel sess u (Some "results") "result" 0 qs (JNum 1).

Definition valid_build_states : list string := ["Successful"; "Failed"; "Unknown"].

Definition build_state_error : exn :=
  ValueError ["Incorrect value for 'build_state'. Valid values include: %s";
              str_join "," valid_build_states].

(** [format] renders a missing [branch_name] as the text [None]. *)
Definition render_opt (x : option string) : string := default "None" x.

Definition get_branch_results (c : client) (sess : session) (plan_key : string)
    (branch_name : option string) (expand : option (list string)) (favorite : bool)
    (labels issue_keys : option (list string))
    (include_all_states continuable : bool) (build_state : option string)
    (max_result : Z) (fuel : nat) : run json :=
  let qs := base_qs max_result in
  let qs := set_if_list "expand" expand _build_expand qs in
  let qs := set_if "favorite" favorite (QBool true) qs in
  let qs := set_if_list "label" labels (str_join ",") qs in
  let qs := set_if_list "issueKey" issue_keys (str_join ",") qs in
  let qs := set_if "includeAllStates" include_all_states (QBool true) qs in
  let qs := set_if "continuable" continuable (QBool true) qs in
  let? qs :=
    match build_state with
    | Some s =>
        if str_truthy build_state then
          if decide (s ∉ valid_build_states) then Raise build_state_error
          else Ok (<["build_state" := QStr s]> qs)
        else Ok qs
    | None => Ok qs
    end in
  let u := _get_url c (BRANCH_RESULT_SERVICE plan_key (render_opt branch_name)) in
  index_bounded fuel sess u (Some "results") "result" 0 qs (JNum 1).

(** ** Parsed HTML

    The tree the markup parser returns.  The [class] attribute is kept
    apart from the others, already split into its class names. *)

Inductive node :=
  | Tag (name : string) (classes : list string) (attrs : list (string * string))
        (contents : list node)
  | Text (s : string).

Definition contents_of (t : node) : list node :=
  match t with
  | Tag _ _ _ cs => cs
  | Text _ => []
  end.

(** Every node below [t], in document order, each with its chain of
    ancestors (nearest first, [anc] last). *)
Fixpoint descendants (anc : list node) (t : node) : list (list node * node) :=
  match t with
  | Tag _ _ _ cs => flat_map (λ c, (t :: anc, c) :: descendants (t :: anc) c) cs
  | Text _ => []
  end.

(** The filter of [find_all(name, {'class': classes})]: a tag of that
    name with at least one of the class names. *)
Definition matches (name : string) (classes : option (list string)) (t : node) : bool :=
  match t with
  | Tag nm cls _ _ =>
      String.eqb nm name &&
      match classes with
      | Some wanted => existsb (λ c, bool_decide (c ∈ wanted)) cls
      | None => true
      end
  | Text _ => false
  end.

Definition find_all_ctx (name : string) (classes : option (list string))
    (t : node) : list (list node * node) :=
  filter (λ p, matches name classes p.2) (descendants [] t).

Definition find_all (name : string) (classes : option (list string))
    (t : node) : list node :=
  snd <$> find_all_ctx name classes t.

(** [find(...)]: the first match or [None]. *)
Definition find (name : string) (classes : option (list string))
    (t : node) : option node :=
  head (find_all name classes t).

(** [find_parent(name)] from the chain of ancestors. *)
Definition find_parent (name : string) (chain : list node) : option node :=
  head (filter (λ a, matches name None a) chain).

(** [tag[k]] *)
Definition attr (t : node) (k : string) : result string :=
  match t with
  | Tag _ _ ats _ =>
      match assoc k ats with Some v => Ok v | None => Raise (KeyError k) end
  | Text _ => Raise TypeError
  end.

(** [tag.string]: the text of a tag whose only content is a text, or a
    tag with that property. *)
Fixpoint node_string (t : node) : option string :=
  match t with
  | Text s => Some s
  | Tag _ _ _ [c] => node_string c
  | Tag _ _ _ _ => None
  end.

(** [os.path.basename]: what follows the last slash. *)
Fixpoint basename_from (cur s : string) : string :=
  match s with
  | EmptyString => cur
  | String a s' => if Ascii.eqb a "/"%char then basename_from s' s' else basename_from cur s'
  end.

Definition basename (p : string) : string := basename_from p p.

(** ** The label search *)

Record build_ref := {
  projectKey : string;
  planKey : string;
  buildKey : string
}.

(** [prj, plan, build = cell.find_all('a')[:3]] and the dict built from
    them; unpacking fewer than three values is a [ValueError]. *)
Definition extract_cell (cell : node) : result build_ref :=
  match take 3 (find_all "a" None cell) with
  | [prj; plan; build] =>
      rbind (attr prj "href") (λ p,
      rbind (attr plan "href") (λ q,
      rbind (attr build "href") (λ b,
        Ok {| projectKey := basename p; planKey := basename q; buildKey := basename b |})))
  | got =>
      Raise (ValueError ["not enough values to unpack (expected 3, got "
                           +:+ pretty (length got) +:+ ")"])
  end.

Definition icon_classes : list string := ["aui-icon"; "aui-icon-small"].

(** The body of [for span in soup.find_all('span', ...)], followed by
    [rest] when the loop runs to its end. *)
Fixpoint scan_spans (spans : list (list node * node)) (rest : run build_ref) : run build_ref :=
  match spans with
  | [] => rest
  | (chain, span) :: spans' =>
      match find_parent "td" chain with
      | Some cell =>
          if decide (length (contents_of cell) ≠ 0%nat) then
            let? r := extract_cell cell in
            emit [Yield r] (scan_spans spans' rest)
          else scan_spans spans' rest
      | None => scan_spans spans' rest
      end
  end.

Section scraping.

(** The markup parser, [BeautifulSoup(text, 'html.parser')]. *)
Variable BeautifulSoup : string → node.

(** The pages of one label: [while 1] from [page_index] on. *)
Fixpoint label_pages (fuel : nat) (sess : session) (u : string) (n : nat)
    (qs : gmap string qsval) (page_index : Z)
    (rest : nat → gmap string qsval → run build_ref) : run build_ref :=
  match fuel with
  | O => finish OutOfFuel
  | S fuel' =>
      let qs := <["pageIndex" := QInt page_index]> qs in
      emit [Request (get_request u (Some qs))] (
        let? response := _get_response sess n u (Some qs) in
        let soup := BeautifulSoup (text response) in
        scan_spans (find_all_ctx "span" (Some icon_classes) soup)
          (match find "a" (Some ["nextLink"]) soup with
           | None => rest (S n) qs
           | Some _ => label_pages fuel' sess u (S n) qs (page_index + 1) rest
           end))
  end.

(** [for label in labels], with the dict [qs] and the request count
    carried from one label to the next. *)
Fixpoint label_loop (fuel : nat) (sess : session) (u : string) (n : nat)
    (qs : gmap string qsval) (labels : list string) : run build_ref :=
  match labels with
  | [] => finish Done
  | label :: labels' =>
      label_pages fuel sess u n (<["labelName" := QStr label]> qs) 1
        (λ n' qs', label_loop fuel sess u n' qs' labels')
  end.

(** The default [labels=None] is not iterable. *)
Definition get_builds_by_label (c : client) (sess : session)
    (labels : option (list string)) (fuel : nat) : run build_ref :=
  let u := _get_url c BFL_ACTION in
  match labels with
  | Some ls => label_loop fuel sess u 0 ∅ ls
  | None => finish (Raised TypeError)
  end.

(** [self._session.get(url)]: no parameters, no headers, and the status
    is not looked at. *)
Definition plain_get (u : string) : request :=
  {| meth := GET; url := u; params := ∅; headers := []; data := ∅ |}.

(** The [for] loop returns in its first round; with no round, the
    function falls off its end and returns [None]. *)
Definition get_branch_variables (sess : session) (n : nat) (u : string)
    (variable_number : Z) : result (option string) :=
  let response := sess n (plain_get u) in
  let soup := BeautifulSoup (text response) in
  match find_all "td" (Some ["variable-value-container"]) soup with
  | [] => Ok None
  | span :: _ =>
      rbind (py_index (find_all "span" None span) variable_number) (λ variable_value,
        Ok (node_string variable_value))
  end.

End scraping.

(** ** A scripted server

    A response source that follows a script: the [n]-th request is
    answered by the [n]-th page of the script, whatever is asked; a
    request beyond the script is answered 404. *)

Definition requested_start (q : request) : Z :=
  match params q !! "start-index" with
  | Some (QInt z) => z
  | _ => 0
  end.

Definition envelope (items_key : string) (items : list json)
    (size max_result start_index : Z) : json :=
  JObj [("size", JNum size); ("max-result", JNum max_result);
        ("start-index", JNum start_index); (items_key, JArr items)].

Definition page_response (outer : option string) (env : json) : response :=
  {| status_code := 200; reason := "OK"; text := "";
     json_body := Some match outer with
                       | Some k => JObj [(k, env)]
                       | None => env
                       end |}.

Definition not_found : response :=
  {| status_code := 404; reason := "Not Found"; text := ""; json_body := None |}.

(** A script page: its items, and the [size], [max-result] and
    [start-index] of its envelope, the latter as a function of the request
    (so that it can echo the cursor, or not). *)
Record page := {
  page_items : list json;
  page_size : Z;
  page_max_result : Z;
  page_start : request → Z
}.

Definition scripted (outer : option string) (items_key : string)
    (script : list page) : session := λ n q,
  match script !! n with
  | Some p =>
      page_response outer
        (envelope items_key (page_items p) (page_size p) (page_max_result p) (page_start p q))
  | None => not_found
  end.

(** A page that echoes the requested cursor. *)
Definition echoing (items : list json) (size max_result : Z) : page :=
  {| page_items := items; page_size := size; page_max_result := max_result;
     page_start := requested_start |}.

(** ** Reading a run against the server

    What the claims about pagination speak of: the envelope in a response,
    the number of requests issued in a stretch of events, and the cursor
    and the echoed offset of each request of a run. *)

Definition envelope_in (outer : option string) (res : response) : result json :=
  rbind (rbind (check_status res) json_of) (envelope_of outer).

Definition int_field (env : json) (k : string) : result Z :=
  rbind (getitem env k) as_int.

Definition issued {A} (es : list (event A)) : nat :=
  length (requests (Run es Done)).

(** The loop ends, with nothing yielded and nothing more requested, at a
    page whose echoed [start-index] is below the requested one. *)
Definition stops_on_regress (outer : option string) (sess : session) (r : run json) : Prop :=
  ∀ pre q post env size' echoed,
    events r = pre ++ Request q :: post →
    envelope_in outer (sess (issued pre) q) = Ok env →
    getitem env "size" = Ok size' →
    int_field env "start-index" = Ok echoed →
    echoed < requested_start q →
    post = [] ∧ outcome_of r = Done.

(** From one request to the next, the cursor advances by the field [k]
    of the envelope that answered the first. *)
Definition advances_by (k : string) (outer : option string) (sess : session)
    (r : run json) : Prop :=
  ∀ pre q mid q' post,
    events r = pre ++ Request q :: mid ++ Request q' :: post →
    issued mid = 0%nat →
    ∃ env step,
      envelope_in outer (sess (issued pre) q) = Ok env ∧
      int_field env k = Ok step ∧
      requested_start q' = requested_start q + step.

(** The echoed [start-index] of each answer of a run: the [k]-th entry
    is what the envelope answering the [k]-th request says. *)
Definition echoed_starts (outer : option string) (sess : session)
    (r : run json) : list (result Z) :=
  imap (λ k q, rbind (envelope_in outer (sess k q)) (λ env, int_field env "start-index"))
       (requests r).

(** A page that says [start-index = 0] whatever was asked. *)
Definition resetting (items : list json) (size max_result : Z) : page :=
  {| page_items := items; page_size := size; page_max_result := max_result;
     page_start := λ _, 0 |}.

Definition local_client : client := __init__ None None None None None.

(** ** Reading an expand string *)

Fixpoint has_char (a : ascii) (s : string) : bool :=
  match s with
  | EmptyString => false
  | String b s' => Ascii.eqb b a || has_char a s'
  end.

(** [s.split(sep)] for a separator of one character. *)
Fixpoint str_split (sep : ascii) (s : string) : list string :=
  match s with
  | EmptyString => [""]
  | String a s' =>
      if Ascii.eqb a sep then "" :: str_split sep s'
      else match str_split sep s' with
           | x :: l => String a x :: l
           | [] => [String a ""]
           end
  end.

(** The parts of a comma-joined string; the empty string has none. *)
Definition comma_parts (s : string) : list string :=
  if decide (s = "") then [] else str_split "," s.

(** ** Reading a scraped page *)

(** [span] lies somewhere below [cell]. *)
Definition encloses (cell span : node) : Prop :=
  span ∈ (snd <$> descendants [] cell).

(** The record [r] comes from a table cell of the page [soup]: a cell
    that is the nearest [td] above a status-icon span, with at least
    three links, the first three of which give the three keys. *)
Definition extracted_from (soup : node) (r : build_ref) : Prop :=
  ∃ chain span cell prj plan build more p q b,
    (chain, span) ∈ descendants [] soup ∧
    matches "span" (Some icon_classes) span = true ∧
    find_parent "td" chain = Some cell ∧
    matches "td" None cell = true ∧
    encloses cell span ∧
    find_all "a" None cell = prj :: plan :: build :: more ∧
    (3 ≤ length (find_all "a" None cell))%nat ∧
    attr prj "href" = Ok p ∧ attr plan "href" = Ok q ∧ attr build "href" = Ok b ∧
    r = {| projectKey := basename p; planKey := basename q; buildKey := basename b |}.

(** ** Sample result pages *)

Definition link (href : string) : node := Tag "a" [] [("href", href)] [Text href].

Definition status_icon : node :=
  Tag "span" ["aui-icon"; "aui-icon-small"; "aui-iconfont-approve"] [] [].

(** A table row whose cell holds the icon and the given links. *)
Definition result_row (hrefs : list string) : node :=
  Tag "tr" [] [] [Tag "td" [] [] (status_icon :: (link <$> hrefs))].

Definition results_page (rows : list node) : node :=
  Tag "[document]" [] [] [Tag "table" [] [] rows].

Definition full_row : node :=
  result_row ["/browse/PRJ"; "/browse/PRJ-PLAN"; "/browse/PRJ-PLAN-7"].

Definition short_row : node :=
  result_row ["/browse/PRJ"; "/browse/PRJ-PLAN"].

(** ** Auxiliary definitions for the statements and their instances *)

(** A server that refuses every PUT and every POST and serves every GET. *)
Definition read_only_server : session := λ _ r,
  match meth r with
  | GET => {| status_code := 200; reason := "OK"; text := "{}"; json_body := Some (JObj []) |}
  | _ => {| status_code := 403; reason := "Forbidden"; text := ""; json_body := None |}
  end.

(** Pages of branch variables: a cell with one span per value. *)
Definition variable_cell (values : list string) : node :=
  Tag "td" ["variable-value-container"] []
    ((λ v, Tag "span" [] [] [Text v]) <$> values).

Definition variables_page : node :=
  Tag "[document]" [] []
    [Tag "table" [] [] [Tag "tr" [] [] [variable_cell ["1"; "on"]];
                        Tag "tr" [] [] [variable_cell ["2"]]]].

Definition empty_page : node := Tag "[document]" [] [] [Tag "p" [] [] [Text "nothing"]].

(** A server of HTML pages: every request is answered 200. *)
Definition html_server : session := λ _ _,
  {| status_code := 200; reason := "OK"; text := "<html>"; json_body := None |}.

(** Whether an exception is a [ValueError], and a computation that
    raises none. *)
Definition is_value_error (e : exn) : bool :=
  match e with
  | ValueError _ => true
  | _ => false
  end.

Definition no_value_error {A} (r : result A) : Prop :=
  ∀ e, r = Raise e → is_value_error e = false.

(** The envelope in the answer to the [n]-th request, as the loops read
    it: status checked, body decoded, [outer] key followed. *)
Definition envelope_at (sess : session) (n : nat) (u : string)
    (qs : gmap string qsval) (outer : option string) : result json :=
  rbind (rbind (_get_response sess n u (Some qs)) json_of) (envelope_of outer).

(** The start-index values of the requests of a run, in order. *)
Definition start_indexes {A} (r : run A) : list (option qsval) :=
  (λ q, params q !! "start-index") <$> requests r.

(** [count] distinct plans, numbered from [from]. *)
Definition numbered (from : Z) (count : nat) : list json :=
  (λ i, JStr ("PLAN-" +:+ pretty i)) <$> seqZ from (Z.of_nat count).

(** Two builds, then a page on which the server has fallen back to
    offset 0, then more builds that are never asked for. *)
Definition reset_script : list page :=
  [echoing [JStr "B-1"; JStr "B-2"] 2 25;
   resetting [JStr "B-1"; JStr "B-2"] 2 25;
   echoing [JStr "B-5"] 1 25].

(** The server cuts the page size down to 2 where 25 were asked for. *)
Definition short_pages : list page :=
  [echoing [JStr "R-1"; JStr "R-2"] 3 2; echoing [JStr "R-3"] 3 2].

(** The record comes from a cell of a page that the server sent with
    status 200. *)
Definition from_some_page (BeautifulSoup : string → node) (sess : session)
    (r : build_ref) : Prop :=
  ∃ k q, status_code (sess k q) = 200 ∧
         extracted_from (BeautifulSoup (text (sess k q))) r.

(** Induction on a tree with the property known of the children. *)
Section node_induction.

Variable P : node → Prop.
Hypothesis text_case : ∀ s, P (Text s).
Hypothesis tag_case : ∀ nm cls ats cs, Forall P cs → P (Tag nm cls ats cs).

Fixpoint node_children_ind (t : node) : P t :=
  match t with
  | Tag nm cls ats cs =>
      tag_case nm cls ats cs
        ((fix go (l : list node) : Forall P l :=
            match l with
            | [] => @List.Forall_nil node P
            | c :: l' => @List.Forall_cons node P c l' (node_children_ind c) (go l')
            end) cs)
  | Text s => text_case s
  end.

End node_induction.

(** ** The methods that are not paginated

    A plain method is modelled by the requests it sends and by what it
    returns or raises. *)

Record call (A : Type) := Call {
  sent : list request;
  returned : result A
}.
Arguments Call {A} sent returned.
Arguments sent {A} c.
Arguments returned {A} c.

(** The items of a [build_vars] dict, in the order of [items()], written
    into the query string under [bamboo.variable.<name>]. *)
Definition variable_qs (build_vars : list (string * qsval))
    (qs : gmap string qsval) : gmap string qsval :=
  foldl (λ qs kv, <["bamboo.variable." +:+ kv.1 := kv.2]> qs) qs build_vars.

(** One request, the elements of the decoded body yielded one by one. *)
Definition get_deployments (c : client) (sess : session)
    (project_key : option string) : run json :=
  let u := _get_url c DEPLOY_SERVICE +:+ "/" +:+ str_or project_key "all" in
  emit [Request (get_request u None)] (
    let? res := _get_response sess 0 u None in
    let? response := json_of res in
    let? items := py_iter response in
    emit (Yield <$> items) (finish Done)).

(** How [delete_plan] ends: it returns nothing, [_post_response] raises,
    or [raise_for_status] raises its own HTTP error (for a status from
    400 to 599). *)
Inductive deletion :=
  | Deleted
  | PostRaised (e : exn)
  | StatusRaised (status : Z) (reason : string).

Definition delete_plan (c : client) (sess : session) (build_key : string)
    : list request * deletion :=
  let u := _get_url c DELETE_ACTION in
  let data : gmap string string := {[ "buildKey" := build_key ]} in
  ([post_request u None (Some data)],
   match _post_response sess 0 u None (Some data) with
   | Raise e => PostRaised e
   | Ok r =>
       if decide (400 ≤ status_code r < 600)
       then StatusRaised (status_code r) (reason r)
       else Deleted
   end).

Definition queue_build (c : client) (sess : session) (plan_key : string)
    (build_vars : list (string * qsval)) : call json :=
  let u := _get_url c QUEUE_SERVICE +:+ "/" +:+ plan_key in
  let qs := variable_qs build_vars ∅ in
  Call [post_request u (Some qs) None]
       (rbind (_post_response sess 0 u (Some qs) None) json_of).

Definition continue_build (c : client) (sess : session) (plan_key : string)
    (build_number : Z) (stage : option string) (executeAllStages : bool)
    (build_vars : list (string * qsval)) : call json :=
  let u := _get_url c QUEUE_SERVICE +:+ "/" +:+ plan_key +:+ "-" +:+ pretty build_number in
  let qs := set_if "executeAllStages" executeAllStages (QStr "true") ∅ in
  let qs := if str_truthy stage then <["stage" := QStr (default "" stage)]> qs else qs in
  let qs := variable_qs build_vars qs in
  Call [put_request u (Some qs)]
       (rbind (_put_response sess 0 u (Some qs)) json_of).

(** ** Reading a paginated run, page by page *)

(** A failed request ends the iteration there, with the exception of the
    request primitive. *)
Definition aborts_on_http_error (sess : session) (r : run json) : Prop :=
  ∀ pre q post,
    events r = pre ++ Request q :: post →
    status_code (sess (issued pre) q) ≠ 200 →
    post = [] ∧ outcome_of r = Raised (PyException (reason (sess (issued pre) q))).

(** What an index-bounded loop yields from an answer: the items of the
    envelope, when the envelope and its [size] can be read. *)
Definition answer_items (outer : option string) (items_key : string)
    (res : response) : list json :=
  match envelope_in outer res with
  | Ok env =>
      match getitem env "size", rbind (getitem env items_key) py_iter with
      | Ok _, Ok items => items
      | _, _ => []
      end
  | Raise _ => []
  end.

(** What [get_builds] yields from the answer to the request [q]: the
    same, unless the echoed [start-index] is unreadable or below the
    requested one. *)
Definition builds_answer_items (res : response) (q : request) : list json :=
  match envelope_in (Some "results") res with
  | Ok env =>
      match getitem env "size", int_field env "start-index" with
      | Ok _, Ok echoed =>
          if decide (echoed < requested_start q) then []
          else match rbind (getitem env "result") py_iter with
               | Ok items => items
               | Raise _ => []
               end
      | _, _ => []
      end
  | Raise _ => []
  end.

(** The items yielded are those of the answers, page after page. *)
Definition yields_pages (items_of : response → request → list json)
    (sess : session) (r : run json) : Prop :=
  yielded r = concat (imap (λ k q, items_of (sess k q) q) (requests r)).

(** Every request of the run is a GET for JSON to [u] that carries
    [max-result = max_result]. *)
Definition requests_uniform (u : string) (max_result : Z) (r : run json) : Prop :=
  ∀ q, q ∈ requests r →
    meth q = GET ∧ url q = u ∧ headers q = [("Accept", "application/json")] ∧
    data q = ∅ ∧ params q !! "max-result" = Some (QInt max_result).

(** A server whose envelopes always say a [max-result] of at least 1 and
    a [size] of at most [bound]. *)
Definition well_paged (outer : option string) (sess : session) (bound : Z) : Prop :=
  ∀ n q env,
    envelope_in outer (sess n q) = Ok env →
    (∀ step, int_field env "max-result" = Ok step → 1 ≤ step) ∧
    (∀ sz, int_field env "size" = Ok sz → sz ≤ bound).

(** The same, with the two fields integers wherever they are present. *)
Definition integer_paged (outer : option string) (sess : session) (bound : Z) : Prop :=
  ∀ n q env,
    envelope_in outer (sess n q) = Ok env →
    (∀ v, getitem env "max-result" = Ok v → ∃ step, v = JNum step ∧ 1 ≤ step) ∧
    (∀ v, getitem env "size" = Ok v → ∃ sz, v = JNum sz ∧ sz ≤ bound).

(** A server that gives the same answer to every request. *)
Definition constant_server (res : response) : session := λ _ _, res.

(** The [expand] parameter that goes with a caller's [expand] argument:
    none for a missing or empty list, the built string otherwise. *)
Definition expand_sent (expand : option (list string)) : option qsval :=
  match expand with
  | Some (k :: l) => Some (QStr (_build_expand (k :: l)))
  | _ => None
  end.

(** A page of [get_builds] whose envelope says [size = 0] is the last
    one: no request follows it and the run is over. *)
Definition ends_at_empty_size (sess : session) (r : run json) : Prop :=
  ∀ pre q post env,
    events r = pre ++ Request q :: post →
    envelope_in (Some "results") (sess (issued pre) q) = Ok env →
    getitem env "size" = Ok (JNum 0) →
    issued post = 0%nat ∧ outcome_of r ≠ OutOfFuel.

(** The parameter that goes with an optional list filter and with a
    flag. *)
Definition list_sent (x : option (list string)) : option qsval :=
  match x with
  | Some (y :: l) => Some (QStr (str_join "," (y :: l)))
  | _ => None
  end.

Definition flag_sent (b : bool) (v : qsval) : option qsval :=
  if b then Some v else None.

(** * Properties *)

(** ** Request primitives *)

Lemma check_status_200 (res : response) :
  status_code res = 200 → check_status res = Ok res.
Proof. intros H. unfold check_status. rewrite decide_False; [done | lia]. Qed.

Lemma check_status_not_200 (res : response) :
  status_code res ≠ 200 → check_status res = Raise (PyException (reason res)).
Proof. intros H. unfold check_status. by rewrite decide_True. Qed.

(** C7: each of [_get_response], [_post_response] and [_put_response]
    raises an exception carrying the response's reason phrase when the
    status code is not 200, and returns the very response the session gave
    when it is 200. *)
Theorem request_primitives_status (sess : session) (n : nat) (u : string)
    (ps : option (gmap string qsval)) (d : option (gmap string string)) :
  let g := sess n (get_request u ps) in
  let p := sess n (post_request u ps d) in
  let t := sess n (put_request u ps) in
  (status_code g ≠ 200 → _get_response sess n u ps = Raise (PyException (reason g))) ∧
  (status_code g = 200 → _get_response sess n u ps = Ok g) ∧
  (status_code p ≠ 200 → _post_response sess n u ps d = Raise (PyException (reason p))) ∧
  (status_code p = 200 → _post_response sess n u ps d = Ok p) ∧
  (status_code t ≠ 200 → _put_response sess n u ps = Raise (PyException (reason t))) ∧
  (status_code t = 200 → _put_response sess n u ps = Ok t).
Proof.
  cbv zeta. unfold _get_response, _post_response, _put_response.
  repeat split; intros H;
    first [by apply check_status_200 | by apply check_status_not_200].
Qed.

Lemma request_primitives_status_witness :
  _get_response read_only_server 0 "http://x" None
    = Ok (read_only_server 0%nat (get_request "http://x" None)) ∧
  _post_response read_only_server 0 "http://x" None None = Raise (PyException "Forbidden") ∧
  _put_response read_only_server 0 "http://x" None = Raise (PyException "Forbidden").
Proof.
  pose proof (request_primitives_status read_only_server 0 "http://x" None None) as H.
  cbv zeta in H. destruct H as (_ & Hg & Hp & _ & Ht & _).
  split; [apply Hg; reflexivity |].
  split; [apply Hp; vm_compute; discriminate | apply Ht; vm_compute; discriminate].
Defined.

(** ** URLs *)

Example get_url_default :
  _get_url (__init__ None None None None None) PLAN_SERVICE
  = "http://localhost:8085/rest/api/latest/plan".
Proof. vm_compute. reflexivity. Qed.

Lemma string_length_app (a b : string) :
  String.length (a +:+ b) = (String.length a + String.length b)%nat.
Proof. induction a as [|ch a IH]; simpl; [done | by rewrite IH]. Qed.

(** C8, as amended: [_get_url] is the concatenation of host, a colon,
    the port in decimal, the prefix and the endpoint, with nothing else in
    between (the lengths add up); the client built from host [http://x],
    port 443 and prefix [/p] gives [http://x:443/p/e] for the endpoint
    [/e], both slashes of the supplied strings being kept. *)
Theorem get_url_is_concatenation :
  (∀ (c : client) (endpoint : string),
     _get_url c endpoint = _host c +:+ ":" +:+ pretty (_port c) +:+ _prefix c +:+ endpoint ∧
     String.length (_get_url c endpoint)
       = (String.length (_host c) + 1 + String.length (pretty (_port c))
          + String.length (_prefix c) + String.length endpoint)%nat) ∧
  _get_url (__init__ (Some "http://x") (Some 443) None None (Some "/p")) "/e"
    = "http://x:443/p/e".
Proof.
  split; [| vm_compute; reflexivity].
  intros c endpoint. split; [reflexivity |].
  unfold _get_url. rewrite !string_length_app. simpl. lia.
Qed.

(** C8 as stated fails: for host [http://x], port 443, prefix [/p] and
    endpoint [/e] the URL is not [http://x:443/pe]. *)
Lemma get_url_example_not_pe :
  _get_url (__init__ (Some "http://x") (Some 443) None None (Some "/p")) "/e"
    ≠ "http://x:443/pe".
Proof. vm_compute. discriminate. Qed.

Lemma str_or_some_nonempty (s d : string) : s ≠ "" → str_or (Some s) d = s.
Proof. intros H. unfold str_or. by rewrite decide_False. Qed.

Lemma append_middle_nonempty (a b c : string) : b ≠ "" → a +:+ b +:+ c ≠ "".
Proof.
  intros Hb H. apply (f_equal String.length) in H.
  rewrite !string_length_app in H. destruct b; [done | simpl in H; lia].
Qed.

(** ** The URL of [get_results] *)

Lemma qs_int_insert_start (qs : gmap string qsval) (z : Z) :
  qs_int (<["start-index" := QInt z]> qs) "start-index" = Ok z.
Proof. unfold qs_int. by rewrite lookup_insert_eq. Qed.

Lemma qs_int_insert_other (qs : gmap string qsval) (k : string) (v : qsval) :
  k ≠ "start-index" →
  qs_int (<[k := v]> qs) "start-index" = qs_int qs "start-index".
Proof. intros H. unfold qs_int. by rewrite lookup_insert_ne. Qed.

Lemma qs_int_base (max_result : Z) : qs_int (base_qs max_result) "start-index" = Ok 0.
Proof.
  unfold base_qs. rewrite qs_int_insert_other by done.
  unfold qs_int. by rewrite lookup_singleton_eq.
Qed.

Lemma qs_int_set_if_list (k : string) (x : option (list string))
    (f : list string → string) (qs : gmap string qsval) :
  k ≠ "start-index" →
  qs_int (set_if_list k x f qs) "start-index" = qs_int qs "start-index".
Proof.
  intros H. destruct x as [[|y l]|]; simpl; try done.
  by apply qs_int_insert_other.
Qed.

Lemma qs_int_set_if (k : string) (b : bool) (v : qsval) (qs : gmap string qsval) :
  k ≠ "start-index" →
  qs_int (set_if k b v qs) "start-index" = qs_int qs "start-index".
Proof. intros H. destruct b; simpl; [by apply qs_int_insert_other | done]. Qed.

(** With the cursor at 0 and the initial [size = 1], the loop issues its
    first request (given fuel for one round). *)
Lemma index_bounded_first_request (fuel : nat) (sess : session) (u : string)
    (outer : option string) (items_key : string) (n : nat) (qs : gmap string qsval) :
  qs_int qs "start-index" = Ok 0 →
  head (requests (index_bounded (S fuel) sess u outer items_key n qs (JNum 1)))
    = Some (get_request u (Some qs)).
Proof. intros H. simpl. rewrite H. reflexivity. Qed.

(** C9: in [get_results], with [plan_key] and [build_number] both given
    the path segment after the result service is [plan_key-build_number];
    with [build_number] given and [plan_key] omitted the segment is [all],
    the URL and the whole iteration being those of a call without
    [build_number]; and the first request goes to that URL. *)
Theorem get_results_build_number (c : client) (sess : session)
    (expand : option (list string)) (max_result : Z) (fuel : nat) :
  (∀ plan_key build_number : string,
     get_results_url c (Some plan_key) (Some build_number)
       = _get_url c RESULT_SERVICE +:+ "/" +:+ plan_key +:+ "-" +:+ build_number) ∧
  (∀ build_number : string,
     get_results_url c None (Some build_number) = _get_url c RESULT_SERVICE +:+ "/all" ∧
     get_results_url c None (Some build_number) = get_results_url c None None ∧
     get_results c sess None (Some build_number) expand max_result fuel
       = get_results c sess None None expand max_result fuel) ∧
  (∀ plan_key build_number : option string,
     url <$> head (requests (get_results c sess plan_key build_number expand max_result (S fuel)))
       = Some (get_results_url c plan_key build_number)).
Proof.
  split; [| split].
  - intros plan_key build_number. unfold get_results_url.
    rewrite str_or_some_nonempty; [done |].
    by apply append_middle_nonempty.
  - intros build_number. done.
  - intros plan_key build_number. unfold get_results.
    rewrite index_bounded_first_request; [done |].
    rewrite qs_int_set_if_list by done. apply qs_int_base.
Qed.

Example get_results_url_examples :
  let c := __init__ (Some "http://ci") (Some 8085) None None None in
  get_results_url c (Some "PRJ-PLAN") (Some "12") = "http://ci:8085/rest/api/latest/result/PRJ-PLAN-12" ∧
  get_results_url c (Some "PRJ-PLAN") None = "http://ci:8085/rest/api/latest/result/PRJ-PLAN" ∧
  get_results_url c None (Some "12") = "http://ci:8085/rest/api/latest/result/all".
Proof. vm_compute. done. Qed.

(** ** The branch-variable scraper *)

(** C10: [get_branch_variables] looks at the first cell of class
    [variable-value-container] only: with no such cell it returns [None]
    without raising; otherwise its result is the [string] of the span at
    index [variable_number] of that first cell, whatever cells follow. *)
Theorem get_branch_variables_first_cell (BeautifulSoup : string → node)
    (sess : session) (n : nat) (u : string) (variable_number : Z) :
  let soup := BeautifulSoup (text (sess n (plain_get u))) in
  let cells := find_all "td" (Some ["variable-value-container"]) soup in
  (cells = [] → get_branch_variables BeautifulSoup sess n u variable_number = Ok None) ∧
  (∀ cell later, cells = cell :: later →
     get_branch_variables BeautifulSoup sess n u variable_number
       = rbind (py_index (find_all "span" None cell) variable_number)
               (λ v, Ok (node_string v))) ∧
  (∀ cell later v, cells = cell :: later → 0 ≤ variable_number →
     find_all "span" None cell !! Z.to_nat variable_number = Some v →
     get_branch_variables BeautifulSoup sess n u variable_number = Ok (node_string v)).
Proof.
  cbv zeta. unfold get_branch_variables.
  split; [| split].
  - intros ->. reflexivity.
  - intros cell later ->. reflexivity.
  - intros cell later v -> Hpos Hv. unfold py_index.
    rewrite (proj2 (Z.leb_le 0 variable_number)) by lia.
    rewrite (proj2 (Z.ltb_ge variable_number 0)) by lia.
    rewrite Hv. reflexivity.
Qed.

Lemma get_branch_variables_first_cell_witness :
  get_branch_variables (λ _, empty_page) html_server 0 "http://x/vars" 0 = Ok None ∧
  get_branch_variables (λ _, variables_page) html_server 0 "http://x/vars" 1 = Ok (Some "on").
Proof.
  split.
  - apply (get_branch_variables_first_cell (λ _, empty_page) html_server 0 "http://x/vars" 0).
    reflexivity.
  - apply (get_branch_variables_first_cell (λ _, variables_page) html_server 0 "http://x/vars" 1)
      with (cell := variable_cell ["1"; "on"]) (later := [variable_cell ["2"]])
           (v := Tag "span" [] [] [Text "on"]).
    + reflexivity.
    + lia.
    + reflexivity.
Defined.

Example get_branch_variables_examples :
  get_branch_variables (λ _, variables_page) html_server 0 "u" (-1) = Ok (Some "on") ∧
  get_branch_variables (λ _, variables_page) html_server 0 "u" 2 = Raise IndexError.
Proof. vm_compute. done. Qed.

(** ** Runs *)

Lemma events_emit {A} (es : list (event A)) (r : run A) :
  events (emit es r) = es ++ events r.
Proof. reflexivity. Qed.

Lemma outcome_emit {A} (es : list (event A)) (r : run A) :
  outcome_of (emit es r) = outcome_of r.
Proof. reflexivity. Qed.

Lemma requests_emit {A} (es : list (event A)) (r : run A) :
  requests (emit es r) = requests (Run es Done) ++ requests r.
Proof. unfold requests. simpl. apply omap_app. Qed.

Lemma yielded_emit {A} (es : list (event A)) (r : run A) :
  yielded (emit es r) = yielded (Run es Done) ++ yielded r.
Proof. unfold yielded. simpl. apply omap_app. Qed.

Lemma requests_page {A} (q : request) (items : list A) (o : outcome) :
  requests (Run (Request q :: (Yield <$> items)) o) = [q].
Proof.
  unfold requests. simpl. f_equal.
  induction items as [|a items IH]; simpl; [done | apply IH].
Qed.

Lemma yielded_page {A} (q : request) (items : list A) (o : outcome) :
  yielded (Run (Request q :: (Yield <$> items)) o) = items.
Proof.
  unfold yielded. simpl.
  induction items as [|a items IH]; simpl; [done | by f_equal].
Qed.

(** ** One round of the index-bounded loop *)

Lemma index_bounded_stop (fuel : nat) (sess : session) (u : string)
    (outer : option string) (items_key : string) (n : nat)
    (qs : gmap string qsval) (size : json) (start sz : Z) :
  qs_int qs "start-index" = Ok start →
  as_int size = Ok sz →
  ¬ start < sz →
  index_bounded fuel sess u outer items_key n qs size = finish Done.
Proof.
  intros Hq Hs Hge. destruct fuel; simpl; rewrite Hq, Hs; simpl;
    by rewrite decide_False.
Qed.

Lemma index_bounded_step (fuel : nat) (sess : session) (u : string)
    (outer : option string) (items_key : string) (n : nat)
    (qs : gmap string qsval) (size : json) (start sz : Z)
    (response env size' itemsv stepv : json) (items : list json) (step : Z) :
  qs_int qs "start-index" = Ok start →
  as_int size = Ok sz →
  start < sz →
  status_code (sess n (get_request u (Some qs))) = 200 →
  json_body (sess n (get_request u (Some qs))) = Some response →
  envelope_of outer response = Ok env →
  getitem env "size" = Ok size' →
  getitem env items_key = Ok itemsv →
  py_iter itemsv = Ok items →
  getitem env "max-result" = Ok stepv →
  as_int stepv = Ok step →
  index_bounded (S fuel) sess u outer items_key n qs size
    = emit (Request (get_request u (Some qs)) :: (Yield <$> items))
        (index_bounded fuel sess u outer items_key (S n)
           (<["start-index" := QInt (start + step)]> qs) size').
Proof.
  intros Hq Hs Hlt Hst Hbody Henv Hsize Hitems Hiter Hmax Hstep.
  simpl. rewrite Hq, Hs. simpl. rewrite decide_True by done.
  unfold _get_response. rewrite check_status_200 by done. simpl.
  unfold json_of. rewrite Hbody. simpl. rewrite Henv. simpl.
  rewrite Hsize. simpl. rewrite Hitems. simpl. rewrite Hiter. simpl.
  rewrite Hmax. simpl. rewrite Hstep. simpl.
  reflexivity.
Qed.

Lemma no_value_error_qs_int qs k : no_value_error (qs_int qs k).
Proof. intros e. unfold qs_int. destruct (qs !! k) as [[]|]; naive_solver. Qed.

Lemma no_value_error_as_int v : no_value_error (as_int v).
Proof. intros e. destruct v; naive_solver. Qed.

Lemma no_value_error_getitem v k : no_value_error (getitem v k).
Proof.
  intros e. destruct v; simpl; try naive_solver.
  destruct (assoc k members); naive_solver.
Qed.

Lemma no_value_error_py_iter v : no_value_error (py_iter v).
Proof. intros e. destruct v; naive_solver. Qed.

Lemma no_value_error_get_response sess n u ps :
  no_value_error (_get_response sess n u ps).
Proof.
  intros e. unfold _get_response, check_status. case_decide; naive_solver.
Qed.

Lemma no_value_error_json_of res : no_value_error (json_of res).
Proof. intros e. unfold json_of. destruct (json_body res); naive_solver. Qed.

Lemma no_value_error_envelope_of outer v : no_value_error (envelope_of outer v).
Proof.
  destruct outer; simpl; [apply no_value_error_getitem | by intros e].
Qed.

Lemma no_value_error_rbind {A B} (r : result A) (k : A → result B) :
  no_value_error r → (∀ a, no_value_error (k a)) → no_value_error (rbind r k).
Proof.
  intros Hr Hk e. destruct r as [a|e']; simpl; intros H.
  - by apply (Hk a).
  - injection H as ->. by apply Hr.
Qed.

Lemma attempt_no_value_error {A B} (r : result A) (k : A → run B) (args : list string) :
  no_value_error r →
  (∀ a, outcome_of (k a) ≠ Raised (ValueError args)) →
  outcome_of (attempt r k) ≠ Raised (ValueError args).
Proof.
  intros Hr Hk. destruct r as [a|e]; simpl; [apply Hk |].
  intros [= ->]. by specialize (Hr _ eq_refl).
Qed.

Create HintDb nve.

#[local] Hint Resolve no_value_error_qs_int no_value_error_as_int
  no_value_error_getitem no_value_error_py_iter no_value_error_get_response
  no_value_error_json_of no_value_error_envelope_of : nve.

(** The index-bounded loop itself never raises a [ValueError]. *)
Lemma index_bounded_no_value_error (fuel : nat) (sess : session) (u : string)
    (outer : option string) (items_key : string) (n : nat)
    (qs : gmap string qsval) (size : json) (args : list string) :
  outcome_of (index_bounded fuel sess u outer items_key n qs size)
    ≠ Raised (ValueError args).
Proof.
  revert n qs size. induction fuel as [|fuel IH]; intros n qs size.
  - cbn [index_bounded].
    apply attempt_no_value_error; [auto with nve | intros start].
    apply attempt_no_value_error; [auto with nve | intros sz].
    case_decide; done.
  - cbn [index_bounded].
    apply attempt_no_value_error; [auto with nve | intros start].
    apply attempt_no_value_error; [auto with nve | intros sz].
    case_decide; [| done]. rewrite outcome_emit.
    apply attempt_no_value_error; [auto with nve | intros res].
    apply attempt_no_value_error; [auto with nve | intros response].
    apply attempt_no_value_error; [auto with nve | intros env].
    apply attempt_no_value_error; [auto with nve | intros size'].
    apply attempt_no_value_error;
      [apply no_value_error_rbind; auto with nve | intros items].
    rewrite outcome_emit.
    apply attempt_no_value_error;
      [apply no_value_error_rbind; auto with nve | intros step].
    apply IH.
Qed.

(** The ways one round of the index-bounded loop can go: nothing happens
    (the loop is over, or its test fails); the request is issued and the
    iteration ends with an exception after yielding some or none of the
    page; or the page is yielded in full and the loop goes on with the
    cursor advanced by the envelope's [max-result]. *)
Lemma index_bounded_cases (fuel : nat) (sess : session) (u : string)
    (outer : option string) (items_key : string) (n : nat)
    (qs : gmap string qsval) (size : json) :
  let r := index_bounded (S fuel) sess u outer items_key n qs size in
  events r = [] ∨
  (∃ items e, r = Run (Request (get_request u (Some qs)) :: (Yield <$> items)) (Raised e)) ∨
  (∃ start env size' items step,
     qs_int qs "start-index" = Ok start ∧
     envelope_at sess n u qs outer = Ok env ∧
     getitem env "size" = Ok size' ∧
     rbind (getitem env items_key) py_iter = Ok items ∧
     rbind (getitem env "max-result") as_int = Ok step ∧
     r = emit (Request (get_request u (Some qs)) :: (Yield <$> items))
           (index_bounded fuel sess u outer items_key (S n)
              (<["start-index" := QInt (start + step)]> qs) size')).
Proof.
  cbv zeta. cbn [index_bounded]. unfold envelope_at.
  destruct (qs_int qs "start-index") as [start|e] eqn:Hq; [| by left].
  destruct (as_int size) as [sz|e] eqn:Hs; [| by left].
  cbn [attempt]. case_decide; [| by left].
  destruct (_get_response sess n u (Some qs)) as [res|e] eqn:Hres; cbn [attempt rbind];
    [| right; left; exists [], e; reflexivity].
  destruct (json_of res) as [response|e] eqn:Hjs; cbn [attempt rbind];
    [| right; left; exists [], e; reflexivity].
  destruct (envelope_of outer response) as [env|e] eqn:Henv; cbn [attempt rbind];
    [| right; left; exists [], e; reflexivity].
  destruct (getitem env "size") as [size'|e] eqn:Hsize; cbn [attempt];
    [| right; left; exists [], e; reflexivity].
  destruct (rbind (getitem env items_key) py_iter) as [items|e] eqn:Hitems;
    cbn [attempt]; [| right; left; exists [], e; reflexivity].
  destruct (rbind (getitem env "max-result") as_int) as [step|e] eqn:Hstep;
    cbn [attempt].
  - right; right. by exists start, env, size', items, step.
  - right; left. exists items, e. unfold emit, finish. cbn [events outcome_of].
    by rewrite app_nil_r.
Qed.

(** Every request of the loop carries the dict it started from, except
    for the cursor. *)
Lemma index_bounded_request_params (fuel : nat) (sess : session) (u : string)
    (outer : option string) (items_key : string) (n : nat)
    (qs : gmap string qsval) (size : json) (q : request) (k : string) :
  q ∈ requests (index_bounded fuel sess u outer items_key n qs size) →
  k ≠ "start-index" →
  url q = u ∧ params q !! k = qs !! k.
Proof.
  revert n qs size. induction fuel as [|fuel IH]; intros n qs size Hq Hk.
  - exfalso. revert Hq. cbn [index_bounded]. unfold attempt.
    destruct (qs_int qs "start-index"); [| by intros ?%elem_of_nil].
    destruct (as_int size); [| by intros ?%elem_of_nil].
    case_decide; by intros ?%elem_of_nil.
  - destruct (index_bounded_cases fuel sess u outer items_key n qs size)
      as [Hnil | [(items & e & Hr) | (start & env & size' & items & step & _ & _ & _ & _ & _ & Hr)]].
    + unfold requests in Hq. rewrite Hnil in Hq. by apply elem_of_nil in Hq.
    + rewrite Hr in Hq. rewrite requests_page in Hq.
      apply list_elem_of_singleton in Hq as ->. done.
    + rewrite Hr, requests_emit, requests_page in Hq.
      apply elem_of_cons in Hq as [-> | Hq]; [done |].
      apply IH in Hq as [Hu Hp]; [| done].
      split; [done |]. rewrite Hp. by rewrite lookup_insert_ne.
Qed.

(** ** The [build_state] filter *)

(** C6, as amended: iterating [get_branch_results] with a non-empty
    [build_state] outside [Successful], [Failed], [Unknown] ends with the
    validation error before any request is issued and before anything is
    yielded; with a [build_state] inside the enum the validation error is
    not raised and the filter is sent along with the requests. *)
Theorem build_state_validated (c : client) (sess : session) (plan_key : string)
    (branch_name : option string) (expand : option (list string)) (favorite : bool)
    (labels issue_keys : option (list string)) (include_all_states continuable : bool)
    (build_state : string) (max_result : Z) (fuel : nat) :
  let r := get_branch_results c sess plan_key branch_name expand favorite labels
             issue_keys include_all_states continuable (Some build_state)
             max_result fuel in
  (build_state ≠ "" → build_state ∉ valid_build_states →
     r = Run [] (Raised build_state_error)) ∧
  (build_state ∈ valid_build_states →
     outcome_of r ≠ Raised build_state_error ∧
     ∀ q, q ∈ requests r → params q !! "build_state" = Some (QStr build_state)).
Proof.
  cbv zeta. unfold get_branch_results, str_truthy. split.
  - intros Hne Hout.
    rewrite (proj2 (String.eqb_neq build_state "")) by done. cbn [negb].
    by rewrite decide_True.
  - intros Hin.
    assert (build_state ≠ "") as Hne.
    { intros ->. revert Hin. vm_compute. intros Hin.
      repeat (apply elem_of_cons in Hin as [? | Hin]; [done |]).
      by apply elem_of_nil in Hin. }
    rewrite (proj2 (String.eqb_neq build_state "")) by done. cbn [negb].
    rewrite decide_False by (by intros ?). cbn [attempt].
    split; [apply index_bounded_no_value_error |].
    intros q Hq.
    apply (index_bounded_request_params _ _ _ _ _ _ _ _ _ "build_state") in Hq
      as [_ ->]; [| done].
    by rewrite lookup_insert_eq.
Qed.

Lemma build_state_validated_witness :
  get_branch_results local_client (scripted (Some "results") "result" [])
    "PRJ-PLAN" (Some "dev") None false None None false false (Some "Bogus") 25 3
    = Run [] (Raised build_state_error) ∧
  outcome_of (get_branch_results local_client
                (scripted (Some "results") "result" [echoing [JStr "PRJ-PLAN-3"] 1 25])
                "PRJ-PLAN" (Some "dev") None false None None false false (Some "Failed") 25 3)
    ≠ Raised build_state_error.
Proof.
  split.
  - apply (build_state_validated local_client (scripted (Some "results") "result" [])
             "PRJ-PLAN" (Some "dev") None false None None false false "Bogus" 25 3).
    + discriminate.
    + apply (bool_decide_unpack _). vm_compute. reflexivity.
  - apply (build_state_validated local_client
             (scripted (Some "results") "result" [echoing [JStr "PRJ-PLAN-3"] 1 25])
             "PRJ-PLAN" (Some "dev") None false None None false false "Failed" 25 3).
    apply (bool_decide_unpack _). vm_compute. reflexivity.
Defined.

(** C6 as stated fails: the empty string is a [build_state] outside the
    enum, and with it the iteration raises nothing: it issues its request
    and yields the page. *)
Lemma empty_build_state_not_validated :
  ("" ∉ valid_build_states) ∧
  (let r := get_branch_results local_client
              (scripted (Some "results") "result" [echoing [JStr "PRJ-PLAN-3"] 1 25])
              "PRJ-PLAN" (Some "dev") None false None None false false (Some "") 25 3 in
   outcome_of r = Done ∧ length (requests r) = 1%nat ∧ yielded r = [JStr "PRJ-PLAN-3"]).
Proof.
  split; [apply (bool_decide_unpack _); vm_compute; reflexivity |].
  vm_compute. done.
Qed.

(** ** Three pages of plans *)

Lemma qs_int_lookup (qs : gmap string qsval) (k : string) (z : Z) :
  qs_int qs k = Ok z → qs !! k = Some (QInt z).
Proof. unfold qs_int. destruct (qs !! k) as [[]|]; naive_solver. Qed.

(** One round against a scripted page. *)
Lemma index_bounded_scripted_step (fuel : nat) (outer : option string)
    (items_key : string) (script : list page) (u : string) (n : nat)
    (qs : gmap string qsval) (size : json) (start sz : Z) (p : page) :
  items_key ∉ ["size"; "max-result"; "start-index"] →
  qs_int qs "start-index" = Ok start →
  as_int size = Ok sz →
  start < sz →
  script !! n = Some p →
  index_bounded (S fuel) (scripted outer items_key script) u outer items_key n qs size
    = emit (Request (get_request u (Some qs)) :: (Yield <$> page_items p))
        (index_bounded fuel (scripted outer items_key script) u outer items_key (S n)
           (<["start-index" := QInt (start + page_max_result p)]> qs)
           (JNum (page_size p))).
Proof.
  intros Hkey Hq Hs Hlt Hp.
  apply index_bounded_step with
    (sz := sz) (stepv := JNum (page_max_result p)) (itemsv := JArr (page_items p))
    (env := envelope items_key (page_items p) (page_size p) (page_max_result p)
              (page_start p (get_request u (Some qs))))
    (response := match outer with
                 | Some k => JObj [(k, envelope items_key (page_items p) (page_size p)
                                         (page_max_result p)
                                         (page_start p (get_request u (Some qs))))]
                 | None => envelope items_key (page_items p) (page_size p)
                             (page_max_result p) (page_start p (get_request u (Some qs)))
                 end);
    try done.
  - unfold scripted. by rewrite Hp.
  - unfold scripted. by rewrite Hp.
  - destruct outer as [k|]; [| done]. simpl. by rewrite decide_True.
  - simpl. repeat (rewrite decide_False; [| intros ->; set_solver]).
    by rewrite decide_True.
Qed.

(** C3: [get_plans] with [max_result = 25], against a source that answers
    with three pages of 25, 25 and 10 items, each envelope saying
    [size = 60], [max-result = 25] and echoing the cursor, yields the 60
    items of the three pages in their order, issues exactly three
    requests, with start-index 0, 25 and 50, and then ends normally, the
    cursor 75 not being below 60. *)
Theorem get_plans_three_pages (c : client) (expand : option (list string))
    (l1 l2 l3 : list json) (fuel : nat) :
  length l1 = 25%nat → length l2 = 25%nat → length l3 = 10%nat →
  (3 ≤ fuel)%nat →
  let r := get_plans c
             (scripted (Some "plans") "plan"
                [echoing l1 60 25; echoing l2 60 25; echoing l3 60 25])
             expand 25 fuel in
  yielded r = l1 ++ l2 ++ l3 ∧
  length (yielded r) = 60%nat ∧
  start_indexes r = [Some (QInt 0); Some (QInt 25); Some (QInt 50)] ∧
  outcome_of r = Done.
Proof.
  intros H1 H2 H3 Hfuel.
  destruct fuel as [|[|[|fuel]]]; [lia | lia | lia |].
  cbv zeta. unfold get_plans.
  set (qs := set_if_list "expand" expand _build_expand (base_qs 25)).
  assert (qs_int qs "start-index" = Ok 0) as Hq0.
  { unfold qs. rewrite qs_int_set_if_list by done. apply qs_int_base. }
  assert ("plan" ∉ ["size"; "max-result"; "start-index"]) as Hkey.
  { apply (bool_decide_unpack _). vm_compute. reflexivity. }
  rewrite (index_bounded_scripted_step _ _ _ _ _ _ _ _ 0 1 (echoing l1 60 25))
    by (done || lia).
  rewrite (index_bounded_scripted_step _ _ _ _ _ _ _ _ (0 + 25) 60 (echoing l2 60 25))
    by (done || lia || apply qs_int_insert_start).
  rewrite (index_bounded_scripted_step _ _ _ _ _ _ _ _ (0 + 25 + 25) 60 (echoing l3 60 25))
    by (done || lia || apply qs_int_insert_start).
  rewrite (index_bounded_stop _ _ _ _ _ _ _ _ (0 + 25 + 25 + 25) 60)
    by (done || lia || apply qs_int_insert_start).
  cbn [echoing page_items page_max_result page_size].
  assert (yielded
            (emit (Request (get_request (_get_url c PLAN_SERVICE) (Some qs)) :: (Yield <$> l1))
               (emit (Request (get_request (_get_url c PLAN_SERVICE)
                                 (Some (<["start-index" := QInt (0 + 25)]> qs)))
                        :: (Yield <$> l2))
                  (emit (Request (get_request (_get_url c PLAN_SERVICE)
                                    (Some (<["start-index" := QInt (0 + 25 + 25)]>
                                             (<["start-index" := QInt (0 + 25)]> qs))))
                           :: (Yield <$> l3))
                     (finish Done))))
          = l1 ++ l2 ++ l3) as Hy.
  { rewrite !yielded_emit, !yielded_page. unfold yielded. simpl.
    by rewrite app_nil_r. }
  split; [exact Hy |]. split.
  - rewrite Hy, !length_app. lia.
  - split; [| reflexivity].
    unfold start_indexes. rewrite !requests_emit, !requests_page.
    unfold requests. simpl. rewrite !lookup_insert_eq.
    by rewrite (qs_int_lookup _ _ _ Hq0).
Qed.

Lemma get_plans_three_pages_witness :
  let r := get_plans local_client
             (scripted (Some "plans") "plan"
                [echoing (numbered 0 25) 60 25; echoing (numbered 25 25) 60 25;
                 echoing (numbered 50 10) 60 25])
             (Some ["labels"]) 25 4 in
  yielded r = numbered 0 25 ++ numbered 25 25 ++ numbered 50 10 ∧
  length (yielded r) = 60%nat ∧
  start_indexes r = [Some (QInt 0); Some (QInt 25); Some (QInt 50)] ∧
  outcome_of r = Done.
Proof.
  apply (get_plans_three_pages local_client (Some ["labels"])
           (numbered 0 25) (numbered 25 25) (numbered 50 10) 4).
  - reflexivity.
  - reflexivity.
  - reflexivity.
  - lia.
Defined.

(** ** One round of the loop of [get_builds] *)

Lemma builds_loop_cases (fuel : nat) (sess : session) (u : string) (n : nat)
    (qs : gmap string qsval) (size : json) :
  let r := builds_loop (S fuel) sess u n qs size in
  let q := get_request u (Some qs) in
  events r = [] ∨
  (∃ items e, r = Run (Request q :: (Yield <$> items)) (Raised e)) ∨
  (∃ start env size' echoed,
     qs_int qs "start-index" = Ok start ∧
     envelope_at sess n u qs (Some "results") = Ok env ∧
     getitem env "size" = Ok size' ∧
     rbind (getitem env "start-index") as_int = Ok echoed ∧
     echoed < start ∧
     r = Run [Request q] Done) ∨
  (∃ start env size' echoed items step,
     qs_int qs "start-index" = Ok start ∧
     envelope_at sess n u qs (Some "results") = Ok env ∧
     getitem env "size" = Ok size' ∧
     rbind (getitem env "start-index") as_int = Ok echoed ∧
     ¬ echoed < start ∧
     rbind (getitem env "result") py_iter = Ok items ∧
     as_int size' = Ok step ∧
     r = emit (Request q :: (Yield <$> items))
           (builds_loop fuel sess u (S n)
              (<["start-index" := QInt (start + step)]> qs) size')).
Proof.
  cbv zeta. cbn [builds_loop]. unfold envelope_at, envelope_of.
  destruct (truthy size); [| by left].
  destruct (_get_response sess n u (Some qs)) as [res|e] eqn:Hres; cbn [attempt rbind];
    [| right; left; exists [], e; reflexivity].
  destruct (json_of res) as [response|e] eqn:Hjs; cbn [attempt rbind];
    [| right; left; exists [], e; reflexivity].
  destruct (getitem response "results") as [env|e] eqn:Henv; cbn [attempt rbind];
    [| right; left; exists [], e; reflexivity].
  destruct (getitem env "size") as [size'|e] eqn:Hsize; cbn [attempt];
    [| right; left; exists [], e; reflexivity].
  destruct (rbind (getitem env "start-index") as_int) as [echoed|e] eqn:Hecho;
    cbn [attempt]; [| right; left; exists [], e; reflexivity].
  destruct (qs_int qs "start-index") as [start|e] eqn:Hq; cbn [attempt];
    [| right; left; exists [], e; reflexivity].
  case_decide as Hlt.
  { right; right; left. by exists start, env, size', echoed. }
  destruct (rbind (getitem env "result") py_iter) as [items|e] eqn:Hitems;
    cbn [attempt]; [| right; left; exists [], e; reflexivity].
  destruct (as_int size') as [step|e] eqn:Hstep; cbn [attempt].
  - right; right; right. by exists start, env, size', echoed, items, step.
  - right; left. exists items, e. unfold emit, finish. cbn [events outcome_of].
    by rewrite app_nil_r.
Qed.

Lemma builds_loop_no_fuel (sess : session) (u : string) (n : nat)
    (qs : gmap string qsval) (size : json) :
  events (builds_loop 0 sess u n qs size) = [].
Proof. cbn [builds_loop]. by destruct (truthy size). Qed.

Lemma index_bounded_no_fuel (sess : session) (u : string) (outer : option string)
    (items_key : string) (n : nat) (qs : gmap string qsval) (size : json) :
  events (index_bounded 0 sess u outer items_key n qs size) = [].
Proof.
  cbn [index_bounded]. unfold attempt.
  destruct (qs_int qs "start-index"); [| done].
  destruct (as_int size); [| done]. by case_decide.
Qed.

(** ** Runs, event by event *)

Lemma envelope_at_in (sess : session) (n : nat) (u : string)
    (qs : gmap string qsval) (outer : option string) :
  envelope_at sess n u qs outer
    = envelope_in outer (sess n (get_request u (Some qs))).
Proof. reflexivity. Qed.

Lemma requested_start_get (u : string) (qs : gmap string qsval) (start : Z) :
  qs_int qs "start-index" = Ok start →
  requested_start (get_request u (Some qs)) = start.
Proof.
  intros H%qs_int_lookup. unfold requested_start. simpl. by rewrite H.
Qed.

Lemma issued_request {A} (q : request) (es : list (event A)) :
  issued (Request q :: es) = S (issued es).
Proof. reflexivity. Qed.

Lemma issued_yields {A} (items : list A) (es : list (event A)) :
  issued ((Yield <$> items) ++ es) = issued es.
Proof. induction items as [|a items IH]; [done | apply IH]. Qed.

Lemma issued_app {A} (es es' : list (event A)) :
  issued (es ++ es') = (issued es + issued es')%nat.
Proof. unfold issued, requests. simpl. by rewrite omap_app, length_app. Qed.

(** A request found in a stretch of events that begins with yields lies
    behind them. *)
Lemma yields_split {A} (items : list A) (es pre post : list (event A)) (q : request) :
  (Yield <$> items) ++ es = pre ++ Request q :: post →
  ∃ pre', pre = (Yield <$> items) ++ pre' ∧ es = pre' ++ Request q :: post.
Proof.
  revert pre. induction items as [|a items IH]; intros pre H.
  - by exists pre.
  - destruct pre as [|e pre]; [discriminate |].
    injection H as <- H. apply IH in H as (pre' & -> & ->). by exists pre'.
Qed.

Lemma yields_no_request {A} (items : list A) (pre post : list (event A)) (q : request) :
  Yield <$> items ≠ pre ++ Request q :: post.
Proof.
  intros H. rewrite <- (app_nil_r (Yield <$> items)) in H.
  apply yields_split in H as (pre' & _ & H). by destruct pre'.
Qed.

Lemma builds_loop_head (fuel : nat) (sess : session) (u : string) (n : nat)
    (qs : gmap string qsval) (size : json) :
  events (builds_loop fuel sess u n qs size) = [] ∨
  ∃ rest, events (builds_loop fuel sess u n qs size)
            = Request (get_request u (Some qs)) :: rest.
Proof.
  destruct fuel as [|fuel]; [left; apply builds_loop_no_fuel |].
  destruct (builds_loop_cases fuel sess u n qs size)
    as [Hnil | [(items & e & ->) | [(? & ? & ? & ? & _ & _ & _ & _ & _ & ->)
       | (? & ? & ? & ? & items & ? & _ & _ & _ & _ & _ & _ & _ & ->)]]];
    [by left | right; eauto ..].
Qed.

Lemma index_bounded_head (fuel : nat) (sess : session) (u : string)
    (outer : option string) (items_key : string) (n : nat)
    (qs : gmap string qsval) (size : json) :
  events (index_bounded fuel sess u outer items_key n qs size) = [] ∨
  ∃ rest, events (index_bounded fuel sess u outer items_key n qs size)
            = Request (get_request u (Some qs)) :: rest.
Proof.
  destruct fuel as [|fuel]; [left; apply index_bounded_no_fuel |].
  destruct (index_bounded_cases fuel sess u outer items_key n qs size)
    as [Hnil | [(items & e & ->) | (? & ? & ? & items & ? & _ & _ & _ & _ & _ & ->)]];
    [by left | right; eauto ..].
Qed.

(** ** The regression check of [get_builds] *)

Lemma builds_loop_stops_on_regress (fuel : nat) (sess : session) (u : string)
    (n : nat) (qs : gmap string qsval) (size : json) (start : Z)
    (pre post : list (event json)) (q : request) (env size' : json) (echoed : Z) :
  qs_int qs "start-index" = Ok start →
  events (builds_loop fuel sess u n qs size) = pre ++ Request q :: post →
  envelope_in (Some "results") (sess (n + issued pre)%nat q) = Ok env →
  getitem env "size" = Ok size' →
  int_field env "start-index" = Ok echoed →
  echoed < requested_start q →
  post = [] ∧ outcome_of (builds_loop fuel sess u n qs size) = Done.
Proof.
  revert n qs size start pre.
  induction fuel as [|fuel IH]; intros n qs size start pre Hq Hev Henv Hsize Hecho Hlt.
  { rewrite builds_loop_no_fuel in Hev. by destruct pre. }
  destruct (builds_loop_cases fuel sess u n qs size)
    as [Hnil | [(items & e & Hr) | [(start0 & env0 & size0 & echoed0
          & Hq0 & Henv0 & Hsize0 & Hecho0 & Hlt0 & Hr)
       | (start0 & env0 & size0 & echoed0 & items & step
          & Hq0 & Henv0 & Hsize0 & Hecho0 & Hlt0 & Hitems & Hstep & Hr)]]].
  - rewrite Hnil in Hev. by destruct pre.
  - rewrite Hr in Hev |- *. cbn [events] in Hev.
    destruct pre as [|e0 pre]; [| injection Hev as _ Hev; by apply yields_no_request in Hev].
    (* the request at hand is the regressing one, so the round cannot raise *)
    exfalso. injection Hev as <- _.
    rewrite Nat.add_0_r, <- envelope_at_in in Henv.
    rewrite (requested_start_get _ _ _ Hq) in Hlt.
    revert Hr. cbn [builds_loop]. unfold envelope_at, envelope_of in Henv.
    destruct (truthy size); [| done].
    destruct (_get_response sess n u (Some qs)) as [res|]; [| done].
    cbn [attempt rbind] in *.
    destruct (json_of res) as [response|]; [| done]. cbn [attempt rbind] in *.
    rewrite Henv. cbn [attempt]. rewrite Hsize. cbn [attempt].
    unfold int_field in Hecho. rewrite Hecho, Hq. cbn [attempt].
    by rewrite decide_True.
  - rewrite Hr in Hev |- *. cbn [events] in Hev.
    destruct pre as [|e0 pre]; [by injection Hev as _ <- |].
    injection Hev as _ Hev. by destruct pre.
  - rewrite Hr in Hev |- *. rewrite events_emit, outcome_emit in *.
    destruct pre as [|e0 pre].
    + (* the first request of the round: its page did not regress *)
      exfalso. injection Hev as <- _.
      rewrite Nat.add_0_r, <- envelope_at_in, Henv0 in Henv. injection Henv as <-.
      rewrite (requested_start_get _ _ _ Hq0) in Hlt.
      unfold int_field in Hecho. rewrite Hecho0 in Hecho. injection Hecho as <-.
      done.
    + injection Hev as <- Hev. apply yields_split in Hev as (pre' & -> & Hev).
      rewrite issued_request, issued_yields in Henv.
      replace (n + S (issued pre'))%nat with (S n + issued pre')%nat in Henv by lia.
      eapply IH; eauto using qs_int_insert_start.
Qed.

Lemma get_builds_start (plan_key : option string) (labels expand : option (list string))
    (max_result : Z) :
  qs_int (set_if_list "label" labels (str_join ",")
            (set_if_list "expand" expand _build_expand (base_qs max_result)))
         "start-index" = Ok 0.
Proof. rewrite !qs_int_set_if_list by done. apply qs_int_base. Qed.

(** C1, as amended: in [get_builds], when a fetched page echoes a
    [start-index] below the one that was requested, the iteration ends
    there: nothing of that page is yielded, no further request is issued,
    and the generator finishes normally.  (The index-bounded methods do
    not look at the echoed [start-index].) *)
Theorem get_builds_stops_on_regress (c : client) (sess : session)
    (plan_key : option string) (labels expand : option (list string))
    (max_result : Z) (fuel : nat) :
  stops_on_regress (Some "results") sess
    (get_builds c sess plan_key labels expand max_result fuel).
Proof.
  intros pre q post env size' echoed Hev Henv Hsize Hecho Hlt.
  unfold get_builds in *.
  eapply builds_loop_stops_on_regress; eauto.
  apply (get_builds_start plan_key).
Qed.

Lemma get_builds_stops_on_regress_witness :
  let r := get_builds local_client (scripted (Some "results") "result" reset_script)
             (Some "PRJ-PLAN") None None 25 5 in
  events r
    = [Request (get_request "http://localhost:8085/rest/api/latest/result/PRJ-PLAN"
                  (Some (base_qs 25)));
       Yield (JStr "B-1"); Yield (JStr "B-2")]
      ++ [Request (get_request "http://localhost:8085/rest/api/latest/result/PRJ-PLAN"
                     (Some (<["start-index" := QInt 2]> (base_qs 25))))] ∧
  outcome_of r = Done.
Proof.
  cbv zeta.
  set (q0 := get_request "http://localhost:8085/rest/api/latest/result/PRJ-PLAN"
               (Some (base_qs 25))).
  set (q1 := get_request "http://localhost:8085/rest/api/latest/result/PRJ-PLAN"
               (Some (<["start-index" := QInt 2]> (base_qs 25)))).
  destruct (get_builds_stops_on_regress local_client
              (scripted (Some "results") "result" reset_script)
              (Some "PRJ-PLAN") None None 25 5
              [Request q0; Yield (JStr "B-1"); Yield (JStr "B-2")] q1
              (drop 4 (events (get_builds local_client
                                 (scripted (Some "results") "result" reset_script)
                                 (Some "PRJ-PLAN") None None 25 5)))
              (envelope "result" [JStr "B-1"; JStr "B-2"] 2 25 0) (JNum 2) 0)
    as [Hpost Hdone].
  - vm_compute. reflexivity.
  - vm_compute. reflexivity.
  - vm_compute. reflexivity.
  - vm_compute. reflexivity.
  - vm_compute. reflexivity.
  - split; [| exact Hdone].
    vm_compute. reflexivity.
Defined.

(** C1 as stated fails for the index-bounded methods: [get_plans] is
    answered, at cursor 25, by a page that echoes [start-index = 0]; the
    items of that page are yielded all the same and a third request is
    issued. *)
Lemma get_plans_ignores_regress :
  let sess := scripted (Some "plans") "plan"
                [echoing [JStr "P-1"] 60 25; resetting [JStr "P-1"] 60 25;
                 echoing [JStr "P-3"] 60 25] in
  let r := get_plans local_client sess None 25 5 in
  start_indexes r = [Some (QInt 0); Some (QInt 25); Some (QInt 50)] ∧
  echoed_starts (Some "plans") sess r = [Ok 0; Ok 0; Ok 50] ∧
  yielded r = [JStr "P-1"; JStr "P-1"; JStr "P-3"] ∧
  ¬ stops_on_regress (Some "plans") sess r.
Proof.
  cbv zeta. split; [vm_compute; reflexivity |].
  split; [vm_compute; reflexivity |].
  split; [vm_compute; reflexivity |].
  intros H.
  set (u := "http://localhost:8085/rest/api/latest/plan").
  destruct (H [Request (get_request u (Some (base_qs 25))); Yield (JStr "P-1")]
              (get_request u (Some (<["start-index" := QInt 25]> (base_qs 25))))
              [Yield (JStr "P-1");
               Request (get_request u (Some (<["start-index" := QInt 50]> (base_qs 25))));
               Yield (JStr "P-3")]
              (envelope "plan" [JStr "P-1"] 60 25 0) (JNum 60) 0) as [Hpost _];
    [vm_compute; reflexivity .. | discriminate Hpost].
Qed.

(** ** The advance of the cursor *)

Lemma index_bounded_advances (fuel : nat) (sess : session) (u : string)
    (outer : option string) (items_key : string) (n : nat)
    (qs : gmap string qsval) (size : json)
    (pre mid post : list (event json)) (q q' : request) :
  events (index_bounded fuel sess u outer items_key n qs size)
    = pre ++ Request q :: mid ++ Request q' :: post →
  issued mid = 0%nat →
  ∃ env step,
    envelope_in outer (sess (n + issued pre)%nat q) = Ok env ∧
    int_field env "max-result" = Ok step ∧
    requested_start q' = requested_start q + step.
Proof.
  revert n qs size pre.
  induction fuel as [|fuel IH]; intros n qs size pre Hev Hmid.
  { rewrite index_bounded_no_fuel in Hev. by destruct pre. }
  destruct (index_bounded_cases fuel sess u outer items_key n qs size)
    as [Hnil | [(items & e & Hr) | (start & env & size' & items & step
          & Hq & Henv & Hsize & Hitems & Hstep & Hr)]].
  - rewrite Hnil in Hev. by destruct pre.
  - rewrite Hr in Hev. cbn [events] in Hev.
    destruct pre as [|e0 pre]; injection Hev as _ Hev;
      by apply yields_no_request in Hev.
  - rewrite Hr, events_emit in Hev.
    destruct pre as [|e0 pre].
    + injection Hev as <- Hev. apply yields_split in Hev as (mid' & -> & Hev).
      rewrite issued_yields in Hmid.
      destruct (index_bounded_head fuel sess u outer items_key (S n)
                  (<["start-index" := QInt (start + step)]> qs) size')
        as [Hnil | [rest Hhead]].
      { rewrite Hnil in Hev. by destruct mid'. }
      rewrite Hhead in Hev.
      destruct mid' as [|e1 mid']; [| by injection Hev as <- _].
      injection Hev as <- _.
      exists env, step. rewrite Nat.add_0_r, <- envelope_at_in.
      split; [done |]. split; [done |].
      rewrite (requested_start_get _ _ _ Hq).
      apply requested_start_get, qs_int_insert_start.
    + injection Hev as <- Hev. apply yields_split in Hev as (pre' & -> & Hev).
      rewrite issued_request, issued_yields.
      replace (n + S (issued pre'))%nat with (S n + issued pre')%nat by lia.
      eapply IH; eauto.
Qed.

Lemma builds_loop_advances (fuel : nat) (sess : session) (u : string) (n : nat)
    (qs : gmap string qsval) (size : json)
    (pre mid post : list (event json)) (q q' : request) :
  events (builds_loop fuel sess u n qs size)
    = pre ++ Request q :: mid ++ Request q' :: post →
  issued mid = 0%nat →
  ∃ env step,
    envelope_in (Some "results") (sess (n + issued pre)%nat q) = Ok env ∧
    int_field env "size" = Ok step ∧
    requested_start q' = requested_start q + step.
Proof.
  revert n qs size pre.
  induction fuel as [|fuel IH]; intros n qs size pre Hev Hmid.
  { rewrite builds_loop_no_fuel in Hev. by destruct pre. }
  destruct (builds_loop_cases fuel sess u n qs size)
    as [Hnil | [(items & e & Hr) | [(start & env & size' & echoed
          & Hq & Henv & Hsize & Hecho & Hlt & Hr)
       | (start & env & size' & echoed & items & step
          & Hq & Henv & Hsize & Hecho & Hlt & Hitems & Hstep & Hr)]]].
  - rewrite Hnil in Hev. by destruct pre.
  - rewrite Hr in Hev. cbn [events] in Hev.
    destruct pre as [|e0 pre]; injection Hev as _ Hev;
      by apply yields_no_request in Hev.
  - rewrite Hr in Hev. cbn [events] in Hev.
    destruct pre as [|e0 pre]; injection Hev as _ Hev.
    + by destruct mid.
    + by destruct pre.
  - rewrite Hr, events_emit in Hev.
    destruct pre as [|e0 pre].
    + injection Hev as <- Hev. apply yields_split in Hev as (mid' & -> & Hev).
      rewrite issued_yields in Hmid.
      destruct (builds_loop_head fuel sess u (S n)
                  (<["start-index" := QInt (start + step)]> qs) size')
        as [Hnil | [rest Hhead]].
      { rewrite Hnil in Hev. by destruct mid'. }
      rewrite Hhead in Hev.
      destruct mid' as [|e1 mid']; [| by injection Hev as <- _].
      injection Hev as <- _.
      exists env, step. rewrite Nat.add_0_r, <- envelope_at_in.
      split; [done |]. split; [unfold int_field; by rewrite Hsize |].
      rewrite (requested_start_get _ _ _ Hq).
      apply requested_start_get, qs_int_insert_start.
    + injection Hev as <- Hev. apply yields_split in Hev as (pre' & -> & Hev).
      rewrite issued_request, issued_yields.
      replace (n + S (issued pre'))%nat with (S n + issued pre')%nat by lia.
      eapply IH; eauto.
Qed.

(** C2, as amended: in [get_environment_results], [get_plans],
    [get_branches], [get_results] and [get_branch_results], from each
    request to the next the cursor advances by the [max-result] of the
    envelope that answered, whatever [max_result] the caller asked for;
    in [get_builds] it advances by the envelope's [size]. *)
Theorem cursor_advances (c : client) (sess : session) (fuel : nat) (max_result : Z)
    (environment_id : Z) (plan_key : string) (plan_key' build_number : option string)
    (branch_name build_state : option string)
    (expand labels issue_keys : option (list string))
    (enabled_only favorite include_all_states continuable : bool) :
  advances_by "max-result" None sess
    (get_environment_results c sess environment_id max_result fuel) ∧
  advances_by "max-result" (Some "plans") sess
    (get_plans c sess expand max_result fuel) ∧
  advances_by "max-result" (Some "branches") sess
    (get_branches c sess plan_key enabled_only max_result fuel) ∧
  advances_by "max-result" (Some "results") sess
    (get_results c sess plan_key' build_number expand max_result fuel) ∧
  advances_by "max-result" (Some "results") sess
    (get_branch_results c sess plan_key branch_name expand favorite labels issue_keys
       include_all_states continuable build_state max_result fuel) ∧
  advances_by "size" (Some "results") sess
    (get_builds c sess plan_key' labels expand max_result fuel).
Proof.
  repeat split; intros pre q mid q' post Hev Hmid.
  - eapply (index_bounded_advances _ _ _ _ _ 0); eauto.
  - eapply (index_bounded_advances _ _ _ _ _ 0); eauto.
  - eapply (index_bounded_advances _ _ _ _ _ 0); eauto.
  - eapply (index_bounded_advances _ _ _ _ _ 0); eauto.
  - unfold get_branch_results in Hev.
    match type of Hev with
    | events (attempt ?v _) = _ => destruct v as [qs|e]
    end; [| by destruct pre].
    eapply (index_bounded_advances _ _ _ _ _ 0); eauto.
  - eapply (builds_loop_advances _ _ _ 0); eauto.
Qed.

Lemma cursor_advances_witness :
  let sess := scripted (Some "results") "result" short_pages in
  let u := "http://localhost:8085/rest/api/latest/result/all" in
  ∃ env step,
    envelope_in (Some "results") (sess 0%nat (get_request u (Some (base_qs 25)))) = Ok env ∧
    int_field env "max-result" = Ok step ∧
    requested_start (get_request u (Some (<["start-index" := QInt 2]> (base_qs 25))))
      = requested_start (get_request u (Some (base_qs 25))) + step.
Proof.
  cbv zeta.
  destruct (cursor_advances local_client (scripted (Some "results") "result" short_pages)
              5 25 0 "PRJ-PLAN" None None None None None None None false false false false)
    as (_ & _ & _ & H & _).
  apply (H [] _ [Yield (JStr "R-1"); Yield (JStr "R-2")] _ [Yield (JStr "R-3")]).
  - vm_compute. reflexivity.
  - reflexivity.
Defined.

(** C2 as stated fails for [get_builds]: the envelope of the first page
    says [max-result = 25] and [size = 2], and the second request asks for
    start-index 2, not 25. *)
Lemma get_builds_advances_by_size :
  let sess := scripted (Some "results") "result"
                [echoing [JStr "B-1"; JStr "B-2"] 2 25; echoing [] 0 25] in
  let r := get_builds local_client sess None None None 25 5 in
  rbind (envelope_in (Some "results")
           (sess 0%nat (get_request "http://localhost:8085/rest/api/latest/result"
                          (Some (base_qs 25)))))
        (λ env, int_field env "max-result") = Ok 25 ∧
  start_indexes r = [Some (QInt 0); Some (QInt 2)] ∧
  outcome_of r = Done ∧
  ¬ advances_by "max-result" (Some "results") sess r.
Proof.
  cbv zeta. split; [vm_compute; reflexivity |].
  split; [vm_compute; reflexivity |].
  split; [vm_compute; reflexivity |].
  intros H.
  set (u := "http://localhost:8085/rest/api/latest/result").
  destruct (H [] (get_request u (Some (base_qs 25)))
              [Yield (JStr "B-1"); Yield (JStr "B-2")]
              (get_request u (Some (<["start-index" := QInt 2]> (base_qs 25)))) [])
    as (env & step & Henv & Hstep & Hadv).
  - vm_compute. reflexivity.
  - reflexivity.
  - vm_compute in Henv. injection Henv as <-.
    vm_compute in Hstep. injection Hstep as <-.
    vm_compute in Hadv. discriminate Hadv.
Qed.

(** ** The expand string *)

Lemma str_split_no_sep (sep : ascii) (s : string) :
  has_char sep s = false → str_split sep s = [s].
Proof.
  induction s as [|a s IH]; [done |]. simpl.
  intros [Ha Hs]%orb_false_elim. rewrite Ha, IH; done.
Qed.

Lemma str_split_app (sep : ascii) (x rest : string) :
  has_char sep x = false →
  str_split sep (x +:+ String sep rest) = x :: str_split sep rest.
Proof.
  induction x as [|a x IH]; simpl.
  - intros _. by rewrite Ascii.eqb_refl.
  - intros [Ha Hx]%orb_false_elim. rewrite Ha, IH; done.
Qed.

Lemma str_split_join (sep : ascii) (ps : list string) :
  ps ≠ [] →
  Forall (λ p, has_char sep p = false) ps →
  str_split sep (str_join (String sep "") ps) = ps.
Proof.
  induction ps as [|p ps IH]; [done |]. intros _ Hall.
  apply Forall_cons in Hall as [Hp Hps].
  destruct ps as [|p' ps]; [by apply str_split_no_sep |].
  change (str_join (String sep "") (p :: p' :: ps))
    with (p +:+ String sep (str_join (String sep "") (p' :: ps))).
  rewrite str_split_app by done. f_equal. by apply IH.
Qed.

Lemma str_join_nonempty (sep : string) (p : string) (ps : list string) :
  p ≠ "" → str_join sep (p :: ps) ≠ "".
Proof.
  intros Hp. destruct ps as [|p' ps]; [done |].
  change (str_join sep (p :: p' :: ps)) with (p +:+ sep +:+ str_join sep (p' :: ps)).
  by destruct p.
Qed.

Lemma comma_parts_join (ps : list string) :
  Forall (λ p, p ≠ "" ∧ has_char "," p = false) ps →
  comma_parts (str_join "," ps) = ps.
Proof.
  intros Hall. destruct ps as [|p ps]; [done |].
  unfold comma_parts. rewrite decide_False.
  - apply (str_split_join ","); [done |].
    eapply Forall_impl; [done |]. by intros ? [_ ?].
  - apply str_join_nonempty. by apply Forall_cons in Hall as [[? _] _].
Qed.

Lemma elem_of_expand_set (expand : list string) (k : string) :
  k ∈ elements (list_to_set expand ∩ valid_expands) ↔ k ∈ expand ∧ k ∈ allow_list.
Proof.
  rewrite elem_of_elements, elem_of_intersection. unfold valid_expands.
  by rewrite !elem_of_list_to_set.
Qed.

Lemma allowed_keys_clean :
  Forall (λ k, has_char "," ("results.result." +:+ k) = false) allow_list.
Proof. repeat constructor. Qed.

(** C4: for every list of expansion keys, the comma-separated parts of
    [_build_expand] are pairwise distinct and are exactly the keys that
    are both in the input and among [artifacts], [comments], [labels],
    [jiraIssues], [stages], [stages.stage], [stages.stage.results] and
    [stages.stage.results.result], each prefixed with [results.result.];
    any other key leaves no trace, and no input makes the function
    fail. *)
Theorem build_expand_parts (expand : list string) :
  let parts := comma_parts (_build_expand expand) in
  _build_expand expand = str_join "," parts ∧
  NoDup parts ∧
  ∀ p, p ∈ parts ↔
       ∃ k, p = "results.result." +:+ k ∧ k ∈ expand ∧
            k ∈ ["artifacts"; "comments"; "labels"; "jiraIssues"; "stages";
                 "stages.stage"; "stages.stage.results";
                 "stages.stage.results.result"].
Proof.
  cbv zeta. change ["artifacts"; "comments"; "labels"; "jiraIssues"; "stages";
                    "stages.stage"; "stages.stage.results";
                    "stages.stage.results.result"] with allow_list.
  unfold _build_expand.
  set (ks := elements (list_to_set expand ∩ valid_expands)).
  assert ((λ x, str_join "." ["results.result"; x]) <$> ks
          = String.app "results.result." <$> ks) as -> by done.
  rewrite comma_parts_join.
  - split; [done |]. split.
    + apply (NoDup_fmap_2 _). apply NoDup_elements.
    + intros p. rewrite list_elem_of_fmap. split.
      * intros (k & -> & Hk). exists k. by apply elem_of_expand_set in Hk as [? ?].
      * intros (k & -> & Hk & Hk'). exists k. split; [done |].
        by apply elem_of_expand_set.
  - apply Forall_fmap, Forall_forall. intros k Hk.
    apply elem_of_expand_set in Hk as [_ Hk]. split; [done |].
    by apply (proj1 (Forall_forall _ _) allowed_keys_clean).
Qed.

Lemma build_expand_parts_witness :
  "results.result.stages.stage" ∈ comma_parts (_build_expand ["stages.stage"; "bogus"]) ∧
  "results.result.bogus" ∉ comma_parts (_build_expand ["stages.stage"; "bogus"]).
Proof.
  destruct (build_expand_parts ["stages.stage"; "bogus"]) as (_ & _ & H).
  split.
  - apply H. exists "stages.stage". split; [reflexivity |].
    split; apply (bool_decide_unpack _); vm_compute; reflexivity.
  - intros Hin. apply H in Hin as (k & Heq & _ & Hk).
    apply (inj (String.app "results.result.")) in Heq as <-.
    revert Hk. apply (bool_decide_unpack _). vm_compute. reflexivity.
Defined.

Example build_expand_examples :
  comma_parts (_build_expand ["labels"; "bogus"; "stages.stage"; "labels"])
    ≡ₚ ["results.result.labels"; "results.result.stages.stage"] ∧
  _build_expand ["bogus"; "results.result.labels"] = "" ∧
  _build_expand [] = "".
Proof.
  split; [| by vm_compute].
  vm_compute. apply Permutation_swap.
Qed.

(** ** The label search *)

Lemma elem_of_descendants_tag (anc : list node) (nm : string) (cls : list string)
    (ats : list (string * string)) (cs : list node) (chain : list node) (d : node) :
  (chain, d) ∈ descendants anc (Tag nm cls ats cs) ↔
  ∃ c, c ∈ cs ∧
       ((chain, d) = (Tag nm cls ats cs :: anc, c) ∨
        (chain, d) ∈ descendants (Tag nm cls ats cs :: anc) c).
Proof.
  cbn [descendants]. rewrite list_elem_of_In, in_flat_map.
  split; intros (c & Hc & Hd); exists c.
  - apply list_elem_of_In in Hc. split; [done |].
    apply list_elem_of_In, elem_of_cons in Hd as [-> | Hd]; auto.
  - apply list_elem_of_In in Hc. split; [done |].
    apply list_elem_of_In, elem_of_cons. destruct Hd as [-> | Hd]; auto.
Qed.

(** The nodes below [t] do not depend on the ancestors handed down. *)
Lemma descendants_nodes (t : node) :
  ∀ anc anc' chain d,
    (chain, d) ∈ descendants anc t →
    ∃ chain', (chain', d) ∈ descendants anc' t.
Proof.
  induction t as [s | nm cls ats cs IH] using node_children_ind;
    intros anc anc' chain d Hd.
  - by apply elem_of_nil in Hd.
  - apply elem_of_descendants_tag in Hd as (c & Hc & [Heq | Hd]).
    + injection Heq as -> ->. exists (Tag nm cls ats cs :: anc').
      apply elem_of_descendants_tag. eauto.
    + rewrite Forall_forall in IH.
      destruct (IH c Hc _ (Tag nm cls ats cs :: anc') _ _ Hd) as [chain' Hd'].
      exists chain'. apply elem_of_descendants_tag. eauto.
Qed.

(** The chain recorded with a descendant consists of nodes that enclose
    it, followed by the ancestors handed down. *)
Lemma descendants_chain (t : node) :
  ∀ anc chain d,
    (chain, d) ∈ descendants anc t →
    ∃ path, chain = path ++ anc ∧ ∀ a, a ∈ path → encloses a d.
Proof.
  induction t as [s | nm cls ats cs IH] using node_children_ind;
    intros anc chain d Hd.
  - by apply elem_of_nil in Hd.
  - pose proof Hd as Hd0.
    apply elem_of_descendants_tag in Hd as (c & Hc & [Heq | Hd]).
    + injection Heq as -> ->. exists [Tag nm cls ats cs]. split; [done |].
      intros a ->%list_elem_of_singleton. unfold encloses.
      apply list_elem_of_fmap. exists ([Tag nm cls ats cs], c). split; [done |].
      apply elem_of_descendants_tag. eauto.
    + rewrite Forall_forall in IH.
      destruct (IH c Hc _ _ _ Hd) as (path & -> & Hpath).
      exists (path ++ [Tag nm cls ats cs]). split; [by rewrite <- app_assoc |].
      intros a [Ha | ->%list_elem_of_singleton]%elem_of_app; [by apply Hpath |].
      destruct (descendants_nodes _ _ [] _ _ Hd0) as [chain' Hd'].
      unfold encloses. apply list_elem_of_fmap. by exists (chain', d).
Qed.

Lemma find_parent_encloses (soup : node) (chain : list node) (span cell : node) :
  (chain, span) ∈ descendants [] soup →
  find_parent "td" chain = Some cell →
  matches "td" None cell = true ∧ encloses cell span.
Proof.
  intros Hd Hcell. unfold find_parent in Hcell.
  apply head_Some_elem_of, list_elem_of_filter in Hcell as [Hm Hin].
  split; [by apply Is_true_true |].
  apply descendants_chain in Hd as (path & -> & Hpath).
  rewrite app_nil_r in Hin. by apply Hpath.
Qed.

Lemma extract_cell_ok (cell : node) (r : build_ref) :
  extract_cell cell = Ok r →
  ∃ prj plan build more p q b,
    find_all "a" None cell = prj :: plan :: build :: more ∧
    attr prj "href" = Ok p ∧ attr plan "href" = Ok q ∧ attr build "href" = Ok b ∧
    r = {| projectKey := basename p; planKey := basename q; buildKey := basename b |}.
Proof.
  unfold extract_cell.
  destruct (find_all "a" None cell) as [|prj [|plan [|build more]]]; try done.
  cbn [take].
  destruct (attr prj "href") as [p|] eqn:Hp; [| done].
  destruct (attr plan "href") as [q|] eqn:Hq; [| done].
  destruct (attr build "href") as [b|] eqn:Hb; [| done].
  cbn [rbind]. intros [= <-]. by exists prj, plan, build, more, p, q, b.
Qed.

Lemma scan_spans_yield (spans : list (list node * node)) (rest : run build_ref)
    (r : build_ref) :
  Yield r ∈ events (scan_spans spans rest) →
  (∃ chain span cell,
     (chain, span) ∈ spans ∧ find_parent "td" chain = Some cell ∧
     extract_cell cell = Ok r) ∨
  Yield r ∈ events rest.
Proof.
  induction spans as [|[chain span] spans IH]; [by right |].
  cbn [scan_spans]. intros Hr.
  assert (Yield r ∈ events (scan_spans spans rest) →
          (∃ chain0 span0 cell0,
             (chain0, span0) ∈ (chain, span) :: spans ∧
             find_parent "td" chain0 = Some cell0 ∧ extract_cell cell0 = Ok r) ∨
          Yield r ∈ events rest) as Hlater.
  { intros [(chain0 & span0 & cell0 & Hin & H)|H]%IH; [left | by right].
    exists chain0, span0, cell0. split; [by apply elem_of_cons; right | done]. }
  destruct (find_parent "td" chain) as [cell|] eqn:Hcell; [| by apply Hlater].
  case_decide; [| by apply Hlater].
  destruct (extract_cell cell) as [r0|e] eqn:Hex; cbn [attempt] in Hr;
    [| by apply elem_of_nil in Hr].
  rewrite events_emit in Hr. apply elem_of_cons in Hr as [[= ->] | Hr];
    [| by apply Hlater].
  left. exists chain, span, cell. split; [by apply elem_of_cons; left | done].
Qed.

Lemma page_record (soup : node) (chain : list node) (span cell : node) (r : build_ref) :
  (chain, span) ∈ find_all_ctx "span" (Some icon_classes) soup →
  find_parent "td" chain = Some cell →
  extract_cell cell = Ok r →
  extracted_from soup r.
Proof.
  intros [Hm Hd]%list_elem_of_filter Hcell Hex.
  destruct (find_parent_encloses _ _ _ _ Hd Hcell) as [Htd Henc].
  apply extract_cell_ok in Hex as (prj & plan & build & more & p & q & b
                                   & Hlinks & Hp & Hq & Hb & ->).
  exists chain, span, cell, prj, plan, build, more, p, q, b.
  repeat split; try done.
  - by apply Is_true_true.
  - rewrite Hlinks. simpl. lia.
Qed.

Section label_search.

Variable BeautifulSoup : string → node.

Lemma label_pages_yield (fuel : nat) (sess : session) (u : string) (n : nat)
    (qs : gmap string qsval) (page_index : Z)
    (rest : nat → gmap string qsval → run build_ref) (r : build_ref) :
  Yield r ∈ events (label_pages BeautifulSoup fuel sess u n qs page_index rest) →
  from_some_page BeautifulSoup sess r ∨ ∃ n' qs', Yield r ∈ events (rest n' qs').
Proof.
  revert n qs page_index.
  induction fuel as [|fuel IH]; intros n qs page_index Hr;
    [by apply elem_of_nil in Hr |].
  cbn [label_pages] in Hr. rewrite events_emit in Hr.
  apply elem_of_cons in Hr as [[=] | Hr].
  unfold _get_response, check_status in Hr.
  case_decide as Hst; [by apply elem_of_nil in Hr |].
  cbn [attempt] in Hr.
  apply scan_spans_yield in Hr as [(chain & span & cell & Hin & Hcell & Hex) | Hr].
  - left. eexists n, _. split; [| by eapply page_record].
    destruct (decide (status_code
                        (sess n (get_request u (Some (<["pageIndex" := QInt page_index]> qs))))
                      = 200)); done.
  - destruct (find "a" (Some ["nextLink"]) _); [by eapply IH | right; eauto].
Qed.

Lemma label_loop_yield (fuel : nat) (sess : session) (u : string)
    (labels : list string) (n : nat) (qs : gmap string qsval) (r : build_ref) :
  Yield r ∈ events (label_loop BeautifulSoup fuel sess u n qs labels) →
  from_some_page BeautifulSoup sess r.
Proof.
  revert n qs. induction labels as [|label labels IH]; intros n qs Hr;
    [by apply elem_of_nil in Hr |].
  cbn [label_loop] in Hr.
  apply label_pages_yield in Hr as [Hr | (n' & qs' & Hr)]; [done | by eapply IH].
Qed.

End label_search.

(** C5, as amended: every record that [get_builds_by_label] yields comes
    from a table cell of a page it fetched, a cell that encloses a
    status-icon span and contains at least three links, and is made of
    the last path segments of the hrefs of the cell's first three links. *)
Theorem label_records_from_cells (BeautifulSoup : string → node) (c : client)
    (sess : session) (labels : option (list string)) (fuel : nat) (r : build_ref) :
  Yield r ∈ events (get_builds_by_label BeautifulSoup c sess labels fuel) →
  from_some_page BeautifulSoup sess r.
Proof.
  unfold get_builds_by_label. destruct labels as [ls|]; intros Hr.
  - by eapply label_loop_yield.
  - by apply elem_of_nil in Hr.
Qed.

Lemma label_records_from_cells_witness :
  from_some_page (λ _, results_page [full_row]) html_server
    {| projectKey := "PRJ"; planKey := "PRJ-PLAN"; buildKey := "PRJ-PLAN-7" |}.
Proof.
  apply (label_records_from_cells (λ _, results_page [full_row]) local_client
           html_server (Some ["nightly"]) 2).
  vm_compute. apply elem_of_cons. right. apply elem_of_cons. by left.
Defined.

(** C5 as stated fails: a cell that encloses a status icon and holds two
    links is not skipped; the unpacking of its links raises, and the rows
    that follow are never reached. *)
Lemma short_cell_not_skipped :
  length (find_all "a" None (Tag "td" [] [] (status_icon :: (link <$> ["/browse/PRJ"; "/browse/PRJ-PLAN"]))))
    = 2%nat ∧
  get_builds_by_label (λ _, results_page [full_row; short_row; full_row]) local_client
    html_server (Some ["nightly"]) 2
  = Run [Request (get_request "http://localhost:8085/build/label/viewBuildsForLabel.action"
                    (Some {[ "labelName" := QStr "nightly"; "pageIndex" := QInt 1 ]}));
         Yield {| projectKey := "PRJ"; planKey := "PRJ-PLAN"; buildKey := "PRJ-PLAN-7" |}]
        (Raised (ValueError ["not enough values to unpack (expected 3, got 2)"])).
Proof.
  split; [reflexivity |].
  unfold get_builds_by_label, label_loop. cbn [label_pages].
  rewrite insert_insert_ne by done.
  rewrite !insert_empty.
  reflexivity.
Qed.

(** * Further properties of the client *)

(** ** Construction *)

(** X1: a client never has an empty host or the port 0: a missing or
    empty host gives [http://localhost], a missing or zero port gives
    8085, any other value is kept; and credentials are installed exactly
    when user and password are both given and non-empty. *)
Theorem init_defaults (host : option string) (port : option Z)
    (user password prefix : option string) :
  let c := __init__ host port user password prefix in
  _host c ≠ "" ∧ _port c ≠ 0 ∧
  (∀ h, host = Some h → h ≠ "" → _host c = h) ∧
  (host = None ∨ host = Some "" → _host c = "http://localhost") ∧
  (∀ n, port = Some n → n ≠ 0 → _port c = n) ∧
  (port = None ∨ port = Some 0 → _port c = 8085) ∧
  (∀ u p, _auth c = Some (u, p) ↔
          user = Some u ∧ password = Some p ∧ u ≠ "" ∧ p ≠ "").
Proof.
  cbv zeta. unfold __init__, str_or, int_or. cbn [_host _port _auth].
  split; [| split; [| split; [| split; [| split; [| split]]]]].
  - destruct host as [h|]; [| done]. by case_decide.
  - destruct port as [n|]; [| done]. by case_decide.
  - intros h -> Hh. by rewrite decide_False.
  - by intros [-> | ->].
  - intros n -> Hn. by rewrite decide_False.
  - by intros [-> | ->].
  - intros u p. split.
    + destruct user as [u'|], password as [p'|]; try done.
      case_decide as Hup; [| done]. intros [= -> ->]. by destruct Hup.
    + intros (-> & -> & Hu & Hp). by rewrite decide_True.
Qed.

Lemma init_defaults_witness :
  _host (__init__ (Some "") (Some 0) (Some "admin") (Some "") None) = "http://localhost" ∧
  _port (__init__ (Some "") (Some 0) (Some "admin") (Some "") None) = 8085 ∧
  _port (__init__ (Some "https://ci") (Some 443) None None None) = 443.
Proof.
  pose proof (init_defaults (Some "") (Some 0) (Some "admin") (Some "") None) as H.
  pose proof (init_defaults (Some "https://ci") (Some 443) None None None) as H'.
  cbv zeta in H, H'.
  destruct H as (_ & _ & _ & Hh & _ & Hp & _). destruct H' as (_ & _ & _ & _ & Hn & _).
  split; [apply Hh; by right |]. split; [apply Hp; by right |].
  by apply Hn.
Defined.

(** ** Plain methods *)

(** X3: [delete_plan] posts the build key as form data, with no query
    parameters, to the delete action; it ends normally exactly when the
    answer is a 200 and otherwise raises the exception of
    [_post_response] with the reason phrase: the [raise_for_status] that
    follows never raises. *)
Theorem delete_plan_outcome (c : client) (sess : session) (build_key : string) :
  let q := post_request (_get_url c DELETE_ACTION) None (Some {[ "buildKey" := build_key ]}) in
  (delete_plan c sess build_key).1 = [q] ∧
  data q !! "buildKey" = Some build_key ∧ params q = ∅ ∧
  (status_code (sess 0%nat q) = 200 ↔ (delete_plan c sess build_key).2 = Deleted) ∧
  (status_code (sess 0%nat q) ≠ 200 →
     (delete_plan c sess build_key).2 = PostRaised (PyException (reason (sess 0%nat q)))) ∧
  (∀ status why, (delete_plan c sess build_key).2 ≠ StatusRaised status why).
Proof.
  cbv zeta. unfold delete_plan, _post_response. cbn [fst snd].
  set (q := post_request _ _ _).
  split; [done |]. split; [by apply lookup_singleton_eq |]. split; [done |].
  destruct (decide (status_code (sess 0%nat q) = 200)) as [H200 | Hnot].
  - rewrite (check_status_200 _ H200). rewrite decide_False by lia.
    repeat split; try done.
  - rewrite (check_status_not_200 _ Hnot). repeat split; try done.
Qed.

Lemma delete_plan_outcome_witness :
  (delete_plan local_client read_only_server "PRJ-PLAN").2 = PostRaised (PyException "Forbidden").
Proof.
  destruct (delete_plan_outcome local_client read_only_server "PRJ-PLAN")
    as (_ & _ & _ & _ & H & _).
  apply H. vm_compute. discriminate.
Defined.

(** ** Build variables *)

Lemma variable_qs_cons (k0 : string) (v0 : qsval) (bv : list (string * qsval))
    (qs : gmap string qsval) :
  variable_qs ((k0, v0) :: bv) qs
    = variable_qs bv (<["bamboo.variable." +:+ k0 := v0]> qs).
Proof. reflexivity. Qed.

Lemma variable_qs_other (build_vars : list (string * qsval))
    (qs : gmap string qsval) (key : string) :
  (∀ k, k ∈ build_vars.*1 → key ≠ "bamboo.variable." +:+ k) →
  variable_qs build_vars qs !! key = qs !! key.
Proof.
  revert qs. induction build_vars as [|[k0 v0] bv IH]; intros qs Hkey; [done |].
  rewrite variable_qs_cons.
  rewrite IH.
  - apply lookup_insert_ne. intros Heq. apply (Hkey k0); [| done].
    apply elem_of_cons. by left.
  - intros k Hk. apply Hkey. apply elem_of_cons. by right.
Qed.

Lemma variable_qs_lookup (build_vars : list (string * qsval))
    (qs : gmap string qsval) (k : string) (v : qsval) :
  NoDup build_vars.*1 → (k, v) ∈ build_vars →
  variable_qs build_vars qs !! ("bamboo.variable." +:+ k) = Some v.
Proof.
  revert qs. induction build_vars as [|[k0 v0] bv IH]; intros qs Hnd Hin;
    [by apply elem_of_nil in Hin |].
  apply NoDup_cons in Hnd as [Hk0 Hnd].
  rewrite variable_qs_cons.
  apply elem_of_cons in Hin as [[= -> ->] | Hin]; [| by apply IH].
  rewrite variable_qs_other; [by apply lookup_insert_eq |].
  intros k Hk Heq. apply (inj (String.app "bamboo.variable.")) in Heq as ->. done.
Qed.

Lemma variable_qs_origin (build_vars : list (string * qsval))
    (qs : gmap string qsval) (key : string) (v : qsval) :
  variable_qs build_vars qs !! key = Some v →
  qs !! key = Some v ∨
  ∃ k, key = "bamboo.variable." +:+ k ∧ (k, v) ∈ build_vars.
Proof.
  revert qs. induction build_vars as [|[k0 v0] bv IH]; intros qs Hl; [by left |].
  rewrite variable_qs_cons in Hl.
  apply IH in Hl as [Hl | (k & -> & Hin)].
  - destruct (decide ("bamboo.variable." +:+ k0 = key)) as [<- | Hne].
    + rewrite lookup_insert_eq in Hl. injection Hl as <-.
      right. exists k0. split; [done |]. apply elem_of_cons. by left.
    + rewrite lookup_insert_ne in Hl by done. by left.
  - right. exists k. split; [done |]. apply elem_of_cons. by right.
Qed.

(** X4: the request of [queue_build] is a POST to the queue service
    followed by the plan key; each build variable is sent under
    [bamboo.variable.<name>] with its value, and nothing else is sent as
    a parameter. *)
Theorem queue_build_variables (c : client) (sess : session) (plan_key : string)
    (build_vars : list (string * qsval)) :
  NoDup build_vars.*1 →
  ∃ q, sent (queue_build c sess plan_key build_vars) = [q] ∧
    meth q = POST ∧
    url q = _get_url c "/rest/api/latest/queue" +:+ "/" +:+ plan_key ∧
    (∀ k v, (k, v) ∈ build_vars → params q !! ("bamboo.variable." +:+ k) = Some v) ∧
    (∀ key v, params q !! key = Some v →
       ∃ k, key = "bamboo.variable." +:+ k ∧ (k, v) ∈ build_vars).
Proof.
  intros Hnd. eexists. split; [reflexivity |].
  split; [done |]. split; [done |]. cbn [params post_request or_empty default]. split.
  - intros k v Hin. by apply variable_qs_lookup.
  - intros key v [Hl | H]%variable_qs_origin; [| done].
    by rewrite lookup_empty in Hl.
Qed.

Lemma queue_build_variables_witness :
  ∃ q, sent (queue_build local_client read_only_server "PRJ-PLAN"
               [("branch", QStr "dev"); ("clean", QBool true)]) = [q] ∧
       params q !! "bamboo.variable.clean" = Some (QBool true).
Proof.
  destruct (queue_build_variables local_client read_only_server "PRJ-PLAN"
              [("branch", QStr "dev"); ("clean", QBool true)])
    as (q & Hq & _ & _ & Hv & _).
  - apply (bool_decide_unpack _). vm_compute. reflexivity.
  - exists q. split; [exact Hq |].
    apply (Hv "clean" (QBool true)).
    apply elem_of_cons. right. apply elem_of_cons. by left.
Defined.

(** X5: the request of [continue_build] is a PUT to the queue service
    followed by [plan_key-build_number]; [stage] is sent exactly when a
    non-empty stage is given and [executeAllStages=true] exactly when the
    flag is set, whatever the build variables are called: a variable can
    override neither, and each variable is sent under its prefixed name. *)
Theorem continue_build_parameters (c : client) (sess : session) (plan_key : string)
    (build_number : Z) (stage : option string) (executeAllStages : bool)
    (build_vars : list (string * qsval)) :
  ∃ q, sent (continue_build c sess plan_key build_number stage executeAllStages build_vars)
         = [q] ∧
    meth q = PUT ∧
    url q = _get_url c "/rest/api/latest/queue" +:+ "/" +:+ plan_key +:+ "-"
              +:+ pretty build_number ∧
    params q !! "stage"
      = match stage with
        | Some s => if decide (s = "") then None else Some (QStr s)
        | None => None
        end ∧
    params q !! "executeAllStages"
      = (if executeAllStages then Some (QStr "true") else None) ∧
    (NoDup build_vars.*1 →
     ∀ k v, (k, v) ∈ build_vars → params q !! ("bamboo.variable." +:+ k) = Some v).
Proof.
  eexists. split; [reflexivity |]. split; [done |]. split; [done |].
  cbn [params put_request or_empty default]. unfold id.
  split; [| split].
  - rewrite variable_qs_other by (intros k _; discriminate).
    destruct stage as [s|]; cbn [str_truthy].
    + destruct (decide (s = "")) as [-> | Hs].
      * cbn. destruct executeAllStages; cbn; [by rewrite lookup_insert_ne | done].
      * rewrite (proj2 (String.eqb_neq s "")) by done. cbn [negb default].
        by rewrite lookup_insert_eq.
    + destruct executeAllStages; cbn; [by rewrite lookup_insert_ne | done].
  - rewrite variable_qs_other by (intros k _; discriminate).
    destruct (str_truthy stage); [rewrite lookup_insert_ne by done |];
      destruct executeAllStages; cbn; by rewrite ?lookup_insert_eq.
  - intros Hnd k v Hin. by apply variable_qs_lookup.
Qed.

Lemma continue_build_parameters_witness :
  ∃ q, sent (continue_build local_client read_only_server "PRJ-PLAN" 12 (Some "Deploy") true
               [("stage", QStr "Other")]) = [q] ∧
       params q !! "bamboo.variable.stage" = Some (QStr "Other").
Proof.
  destruct (continue_build_parameters local_client read_only_server "PRJ-PLAN" 12
              (Some "Deploy") true [("stage", QStr "Other")])
    as (q & Hq & _ & _ & _ & _ & Hv).
  exists q. split; [exact Hq |].
  apply Hv.
  - apply (bool_decide_unpack _). vm_compute. reflexivity.
  - apply elem_of_cons. by left.
Defined.

(** ** Deployment projects *)

(** X6: [get_deployments] sends exactly one GET, to the deployment
    service followed by the project key, or by [all] when the key is
    missing or empty; a failed request yields nothing and raises; a JSON
    array is yielded element by element in its order; a JSON object
    raises nothing: its keys are yielded. *)
Theorem get_deployments_single_request (c : client) (sess : session)
    (project_key : option string) :
  let segment := match project_key with
                 | Some k => if decide (k = "") then "all" else k
                 | None => "all"
                 end in
  let q := get_request (_get_url c "/rest/api/latest/deploy/project" +:+ "/" +:+ segment)
             None in
  let r := get_deployments c sess project_key in
  requests r = [q] ∧
  (status_code (sess 0%nat q) ≠ 200 →
     yielded r = [] ∧ outcome_of r = Raised (PyException (reason (sess 0%nat q)))) ∧
  (∀ items, status_code (sess 0%nat q) = 200 →
     json_body (sess 0%nat q) = Some (JArr items) →
     yielded r = items ∧ outcome_of r = Done) ∧
  (∀ members, status_code (sess 0%nat q) = 200 →
     json_body (sess 0%nat q) = Some (JObj members) →
     yielded r = (λ kv, JStr kv.1) <$> members ∧ outcome_of r = Done).
Proof.
  cbv zeta. unfold get_deployments, _get_response.
  change (str_or project_key "all")
    with (match project_key with
          | Some k => if decide (k = "") then "all" else k
          | None => "all"
          end).
  set (q := get_request _ None).
  assert (∀ items : list json,
            emit [Request q] (emit (Yield <$> items) (finish Done))
              = Run (Request q :: (Yield <$> items)) Done) as Hrun.
  { intros items. unfold emit, finish. cbn. by rewrite app_nil_r. }
  split; [| split; [| split]].
  - destruct (check_status (sess 0%nat q)) as [res|e]; cbn [attempt]; [| done].
    destruct (json_of res) as [response|e]; cbn [attempt]; [| done].
    destruct (py_iter response) as [items|e]; cbn [attempt]; [| done].
    rewrite Hrun. apply requests_page.
  - intros H. by rewrite (check_status_not_200 _ H).
  - intros items H Hb. rewrite (check_status_200 _ H). cbn [attempt].
    unfold json_of. rewrite Hb. cbn [attempt py_iter].
    rewrite Hrun. split; [apply yielded_page | done].
  - intros members H Hb. rewrite (check_status_200 _ H). cbn [attempt].
    unfold json_of. rewrite Hb. cbn [attempt py_iter].
    rewrite Hrun. split; [apply yielded_page | done].
Qed.

Lemma get_deployments_single_request_witness :
  yielded (get_deployments local_client
             (constant_server (page_response None (JArr [JStr "D-1"; JStr "D-2"])))
             (Some ""))
    = [JStr "D-1"; JStr "D-2"].
Proof.
  destruct (get_deployments_single_request local_client
              (constant_server (page_response None (JArr [JStr "D-1"; JStr "D-2"])))
              (Some "")) as (_ & _ & H & _).
  apply (H [JStr "D-1"; JStr "D-2"]); reflexivity.
Defined.

(** ** Paginated runs, round by round *)

(** One round of the index-bounded loop: nothing, or the request, the
    items read from its answer, and then either the end of the run or
    the next round. *)
Lemma index_bounded_round (fuel : nat) (sess : session) (u : string)
    (outer : option string) (items_key : string) (n : nat)
    (qs : gmap string qsval) (size : json) :
  let r := index_bounded (S fuel) sess u outer items_key n qs size in
  let q := get_request u (Some qs) in
  events r = [] ∨
  ∃ tl, r = emit (Request q :: (Yield <$> answer_items outer items_key (sess n q))) tl ∧
    ((∃ e, tl = finish (Raised e) ∧
           (status_code (sess n q) ≠ 200 → e = PyException (reason (sess n q)))) ∨
     (status_code (sess n q) = 200 ∧
      ∃ start step size',
        qs_int qs "start-index" = Ok start ∧
        tl = index_bounded fuel sess u outer items_key (S n)
               (<["start-index" := QInt (start + step)]> qs) size')).
Proof.
  cbv zeta. cbn [index_bounded]. unfold answer_items, envelope_in, _get_response. cbv zeta.
  set (q := get_request u (Some qs)).
  destruct (qs_int qs "start-index") as [start|e] eqn:Hq; [| by left].
  destruct (as_int size) as [sz|e] eqn:Hs; [| by left].
  cbn [attempt]. case_decide; [| by left]. right.
  destruct (decide (status_code (sess n q) = 200)) as [H200 | Hnot].
  2:{ rewrite (check_status_not_200 _ Hnot). cbn [attempt rbind].
      eexists. split; [reflexivity |]. left. by eexists. }
  rewrite (check_status_200 _ H200). cbn [attempt rbind].
  destruct (json_of (sess n q)) as [response|e]; cbn [attempt rbind];
    [| eexists; split; [reflexivity | left; by eexists]].
  destruct (envelope_of outer response) as [env|e]; cbn [attempt rbind];
    [| eexists; split; [reflexivity | left; by eexists]].
  destruct (getitem env "size") as [size'|e]; cbn [attempt];
    [| eexists; split; [reflexivity | left; by eexists]].
  destruct (rbind (getitem env items_key) py_iter) as [items|e]; cbn [attempt];
    [| eexists; split; [reflexivity | left; by eexists]].
  destruct (rbind (getitem env "max-result") as_int) as [step|e]; cbn [attempt].
  - exists (index_bounded fuel sess u outer items_key (S n)
              (<["start-index" := QInt (start + step)]> qs) size').
    split; [reflexivity |]. right. split; [done |]. by exists start, step, size'.
  - exists (finish (Raised e)). split; [| left; by eexists].
    unfold emit, finish. cbn. by rewrite app_nil_r.
Qed.

Lemma builds_loop_round (fuel : nat) (sess : session) (u : string) (n : nat)
    (qs : gmap string qsval) (size : json) (start : Z) :
  qs_int qs "start-index" = Ok start →
  let r := builds_loop (S fuel) sess u n qs size in
  let q := get_request u (Some qs) in
  events r = [] ∨
  ∃ tl, r = emit (Request q :: (Yield <$> builds_answer_items (sess n q) q)) tl ∧
    ((∃ o, tl = finish o ∧
           (status_code (sess n q) ≠ 200 → o = Raised (PyException (reason (sess n q))))) ∨
     (status_code (sess n q) = 200 ∧
      ∃ step size',
        tl = builds_loop fuel sess u (S n)
               (<["start-index" := QInt (start + step)]> qs) size')).
Proof.
  intros Hq. cbv zeta. cbn [builds_loop].
  unfold builds_answer_items, envelope_in, envelope_of, int_field, _get_response. cbv zeta.
  rewrite (requested_start_get _ _ _ Hq).
  set (q := get_request u (Some qs)).
  destruct (truthy size); [| by left]. right.
  destruct (decide (status_code (sess n q) = 200)) as [H200 | Hnot].
  2:{ rewrite (check_status_not_200 _ Hnot). cbn [attempt rbind].
      eexists. split; [reflexivity |]. left. by eexists. }
  rewrite (check_status_200 _ H200). cbn [attempt rbind].
  destruct (json_of (sess n q)) as [response|e]; cbn [attempt rbind];
    [| eexists; split; [reflexivity | left; by eexists]].
  destruct (getitem response "results") as [env|e]; cbn [attempt rbind];
    [| eexists; split; [reflexivity | left; by eexists]].
  destruct (getitem env "size") as [size'|e]; cbn [attempt];
    [| eexists; split; [reflexivity | left; by eexists]].
  destruct (rbind (getitem env "start-index") as_int) as [echoed|e]; cbn [attempt];
    [| eexists; split; [reflexivity | left; by eexists]].
  rewrite Hq. cbn [attempt].
  case_decide; [eexists; split; [reflexivity | left; by eexists] |].
  destruct (rbind (getitem env "result") py_iter) as [items|e]; cbn [attempt];
    [| eexists; split; [reflexivity | left; by eexists]].
  destruct (as_int size') as [step|e]; cbn [attempt].
  - exists (builds_loop fuel sess u (S n)
              (<["start-index" := QInt (start + step)]> qs) size').
    split; [reflexivity |]. right. split; [done |]. by exists step, size'.
  - exists (finish (Raised e)). split; [| left; by eexists].
    unfold emit, finish. cbn. by rewrite app_nil_r.
Qed.

Lemma events_emit_page {A} (q : request) (items : list A) (tl : run A) :
  events (emit (Request q :: (Yield <$> items)) tl)
    = Request q :: (Yield <$> items) ++ events tl.
Proof. reflexivity. Qed.

Lemma requests_emit_page {A} (q : request) (items : list A) (tl : run A) :
  requests (emit (Request q :: (Yield <$> items)) tl) = q :: requests tl.
Proof. by rewrite requests_emit, (requests_page q items Done). Qed.

Lemma yielded_emit_page {A} (q : request) (items : list A) (tl : run A) :
  yielded (emit (Request q :: (Yield <$> items)) tl) = items ++ yielded tl.
Proof. by rewrite yielded_emit, (yielded_page q items Done). Qed.

Lemma answer_items_not_200 (outer : option string) (items_key : string) (res : response) :
  status_code res ≠ 200 → answer_items outer items_key res = [].
Proof.
  intros H. unfold answer_items, envelope_in. by rewrite (check_status_not_200 _ H).
Qed.

Lemma builds_answer_items_not_200 (res : response) (q : request) :
  status_code res ≠ 200 → builds_answer_items res q = [].
Proof.
  intros H. unfold builds_answer_items, envelope_in. by rewrite (check_status_not_200 _ H).
Qed.

(** *** A failed request *)

Lemma index_bounded_aborts (fuel : nat) (sess : session) (u : string)
    (outer : option string) (items_key : string) (n : nat)
    (qs : gmap string qsval) (size : json)
    (pre post : list (event json)) (q : request) :
  events (index_bounded fuel sess u outer items_key n qs size) = pre ++ Request q :: post →
  status_code (sess (n + issued pre)%nat q) ≠ 200 →
  post = [] ∧
  outcome_of (index_bounded fuel sess u outer items_key n qs size)
    = Raised (PyException (reason (sess (n + issued pre)%nat q))).
Proof.
  revert n qs size pre. induction fuel as [|fuel IH]; intros n qs size pre Hev Hst.
  { rewrite index_bounded_no_fuel in Hev. by destruct pre. }
  destruct (index_bounded_round fuel sess u outer items_key n qs size)
    as [Hnil | (tl & Hr & Htl)].
  { rewrite Hnil in Hev. by destruct pre. }
  rewrite Hr in Hev |- *. rewrite events_emit_page in Hev. rewrite outcome_emit.
  destruct pre as [|e0 pre].
  - injection Hev as <- Hev. rewrite Nat.add_0_r in Hst |- *.
    rewrite (answer_items_not_200 _ _ _ Hst) in Hev.
    destruct Htl as [(e & -> & He) | [H200 _]]; [| done].
    rewrite (He Hst). cbn in Hev. by subst post.
  - injection Hev as <- Hev. apply yields_split in Hev as (pre' & -> & Hev).
    rewrite issued_request, issued_yields in Hst |- *.
    replace (n + S (issued pre'))%nat with (S n + issued pre')%nat in * by lia.
    destruct Htl as [(e & -> & _) | (_ & start & step & size' & _ & ->)].
    + by destruct pre'.
    + by eapply IH.
Qed.

Lemma builds_loop_aborts (fuel : nat) (sess : session) (u : string) (n : nat)
    (qs : gmap string qsval) (size : json) (start : Z)
    (pre post : list (event json)) (q : request) :
  qs_int qs "start-index" = Ok start →
  events (builds_loop fuel sess u n qs size) = pre ++ Request q :: post →
  status_code (sess (n + issued pre)%nat q) ≠ 200 →
  post = [] ∧
  outcome_of (builds_loop fuel sess u n qs size)
    = Raised (PyException (reason (sess (n + issued pre)%nat q))).
Proof.
  revert n qs size start pre.
  induction fuel as [|fuel IH]; intros n qs size start pre Hq Hev Hst.
  { rewrite builds_loop_no_fuel in Hev. by destruct pre. }
  destruct (builds_loop_round fuel sess u n qs size start Hq)
    as [Hnil | (tl & Hr & Htl)].
  { rewrite Hnil in Hev. by destruct pre. }
  rewrite Hr in Hev |- *. rewrite events_emit_page in Hev. rewrite outcome_emit.
  destruct pre as [|e0 pre].
  - injection Hev as <- Hev. rewrite Nat.add_0_r in Hst |- *.
    rewrite (builds_answer_items_not_200 _ _ Hst) in Hev.
    destruct Htl as [(o & -> & Ho) | [H200 _]]; [| done].
    rewrite (Ho Hst). cbn in Hev. by subst post.
  - injection Hev as <- Hev. apply yields_split in Hev as (pre' & -> & Hev).
    rewrite issued_request, issued_yields in Hst |- *.
    replace (n + S (issued pre'))%nat with (S n + issued pre')%nat in * by lia.
    destruct Htl as [(o & -> & _) | (_ & step & size' & ->)].
    + by destruct pre'.
    + eapply IH; eauto using qs_int_insert_start.
Qed.

(** X7: in each of the six paginated methods a request that is not
    answered with a 200 ends the iteration at once: nothing follows it,
    neither an item nor a request, and the generator raises the exception
    carrying that answer's reason phrase; what was yielded before stays
    yielded. *)
Theorem pagination_aborts_on_http_error (c : client) (sess : session) (fuel : nat)
    (max_result : Z) (environment_id : Z) (plan_key : string)
    (plan_key' build_number branch_name build_state : option string)
    (expand labels issue_keys : option (list string))
    (enabled_only favorite include_all_states continuable : bool) :
  aborts_on_http_error sess (get_environment_results c sess environment_id max_result fuel) ∧
  aborts_on_http_error sess (get_plans c sess expand max_result fuel) ∧
  aborts_on_http_error sess (get_branches c sess plan_key enabled_only max_result fuel) ∧
  aborts_on_http_error sess
    (get_results c sess plan_key' build_number expand max_result fuel) ∧
  aborts_on_http_error sess
    (get_branch_results c sess plan_key branch_name expand favorite labels issue_keys
       include_all_states continuable build_state max_result fuel) ∧
  aborts_on_http_error sess (get_builds c sess plan_key' labels expand max_result fuel).
Proof.
  split; [| split; [| split; [| split; [| split]]]]; intros pre q post Hev Hst.
  1-4: by eapply (index_bounded_aborts _ _ _ _ _ 0).
  - unfold get_branch_results in *.
    match type of Hev with
    | events (attempt ?v _) = _ => destruct v as [qs|e]
    end; [| by destruct pre].
    by eapply (index_bounded_aborts _ _ _ _ _ 0).
  - eapply (builds_loop_aborts _ _ _ 0); eauto. apply (get_builds_start plan_key').
Qed.

Lemma pagination_aborts_on_http_error_witness :
  let r := get_plans local_client
             (scripted (Some "plans") "plan" [echoing [JStr "P-1"] 60 25]) None 25 5 in
  yielded r = [JStr "P-1"] ∧ outcome_of r = Raised (PyException "Not Found").
Proof.
  cbv zeta. split; [vm_compute; reflexivity |].
  set (sess := scripted (Some "plans") "plan" [echoing [JStr "P-1"] 60 25]).
  set (u := "http://localhost:8085/rest/api/latest/plan").
  destruct (pagination_aborts_on_http_error local_client sess 5 25 0 "" None None None None
              None None None false false false false) as (_ & H & _).
  destruct (H [Request (get_request u (Some (base_qs 25))); Yield (JStr "P-1")]
              (get_request u (Some (<["start-index" := QInt 25]> (base_qs 25)))) [])
    as [_ Ho].
  - vm_compute. reflexivity.
  - vm_compute. discriminate.
  - rewrite Ho. reflexivity.
Defined.

(** *** The items yielded *)

Lemma index_bounded_yields (fuel : nat) (sess : session) (u : string)
    (outer : option string) (items_key : string) (n : nat)
    (qs : gmap string qsval) (size : json) :
  yielded (index_bounded fuel sess u outer items_key n qs size)
    = concat (imap (λ k q, answer_items outer items_key (sess (n + k)%nat q))
                (requests (index_bounded fuel sess u outer items_key n qs size))).
Proof.
  revert n qs size. induction fuel as [|fuel IH]; intros n qs size.
  { unfold yielded, requests. by rewrite index_bounded_no_fuel. }
  destruct (index_bounded_round fuel sess u outer items_key n qs size)
    as [Hnil | (tl & Hr & Htl)].
  { unfold yielded, requests. by rewrite Hnil. }
  rewrite Hr, yielded_emit_page, requests_emit_page, imap_cons. cbn [concat].
  rewrite Nat.add_0_r. f_equal.
  destruct Htl as [(e & -> & _) | (_ & start & step & size' & _ & ->)]; [done |].
  rewrite IH. f_equal. apply imap_ext. intros k q _. cbn. do 2 f_equal. lia.
Qed.

Lemma builds_loop_yields (fuel : nat) (sess : session) (u : string) (n : nat)
    (qs : gmap string qsval) (size : json) (start : Z) :
  qs_int qs "start-index" = Ok start →
  yielded (builds_loop fuel sess u n qs size)
    = concat (imap (λ k q, builds_answer_items (sess (n + k)%nat q) q)
                (requests (builds_loop fuel sess u n qs size))).
Proof.
  revert n qs size start. induction fuel as [|fuel IH]; intros n qs size start Hq.
  { unfold yielded, requests. by rewrite builds_loop_no_fuel. }
  destruct (builds_loop_round fuel sess u n qs size start Hq)
    as [Hnil | (tl & Hr & Htl)].
  { unfold yielded, requests. by rewrite Hnil. }
  rewrite Hr, yielded_emit_page, requests_emit_page, imap_cons. cbn [concat].
  rewrite Nat.add_0_r. f_equal.
  destruct Htl as [(o & -> & _) | (_ & step & size' & ->)]; [done |].
  rewrite (IH _ _ _ _ (qs_int_insert_start _ _)).
  f_equal. apply imap_ext. intros k q _. cbn. do 2 f_equal. lia.
Qed.

(** X8: what [get_environment_results], [get_plans], [get_branches],
    [get_results] and [get_branch_results] yield is the concatenation,
    in the order of the requests, of the item lists of the answers:
    every item of every readable page, unchanged and in the server's
    order, none twice and nothing else. *)
Theorem index_bounded_methods_yield_pages (c : client) (sess : session) (fuel : nat)
    (max_result : Z) (environment_id : Z) (plan_key : string)
    (plan_key' build_number branch_name build_state : option string)
    (expand labels issue_keys : option (list string))
    (enabled_only favorite include_all_states continuable : bool) :
  yields_pages (λ res _, answer_items None "results" res) sess
    (get_environment_results c sess environment_id max_result fuel) ∧
  yields_pages (λ res _, answer_items (Some "plans") "plan" res) sess
    (get_plans c sess expand max_result fuel) ∧
  yields_pages (λ res _, answer_items (Some "branches") "branch" res) sess
    (get_branches c sess plan_key enabled_only max_result fuel) ∧
  yields_pages (λ res _, answer_items (Some "results") "result" res) sess
    (get_results c sess plan_key' build_number expand max_result fuel) ∧
  yields_pages (λ res _, answer_items (Some "results") "result" res) sess
    (get_branch_results c sess plan_key branch_name expand favorite labels issue_keys
       include_all_states continuable build_state max_result fuel).
Proof.
  unfold yields_pages.
  split; [| split; [| split; [| split]]].
  1-4: apply (index_bounded_yields _ _ _ _ _ 0).
  unfold get_branch_results.
  match goal with
  | |- context [attempt ?v _] => destruct v as [qs|e]
  end; [| done].
  apply (index_bounded_yields _ _ _ _ _ 0).
Qed.

(** X9: what [get_builds] yields is the concatenation, in the order of
    the requests, of the item lists of the answers whose echoed
    [start-index] is not below the requested one. *)
Theorem get_builds_yields_pages (c : client) (sess : session)
    (plan_key : option string) (labels expand : option (list string))
    (max_result : Z) (fuel : nat) :
  yields_pages builds_answer_items sess
    (get_builds c sess plan_key labels expand max_result fuel).
Proof.
  unfold yields_pages, get_builds.
  apply (builds_loop_yields _ _ _ 0 _ _ 0). apply (get_builds_start plan_key).
Qed.

(** *** The requests sent *)

Lemma index_bounded_requests_shape (fuel : nat) (sess : session) (u : string)
    (outer : option string) (items_key : string) (n : nat)
    (qs : gmap string qsval) (size : json) (q : request) :
  q ∈ requests (index_bounded fuel sess u outer items_key n qs size) →
  ∃ qs', q = get_request u (Some qs') ∧
         ∀ k, k ≠ "start-index" → qs' !! k = qs !! k.
Proof.
  revert n qs size. induction fuel as [|fuel IH]; intros n qs size Hq.
  { unfold requests in Hq. rewrite index_bounded_no_fuel in Hq.
    by apply elem_of_nil in Hq. }
  destruct (index_bounded_round fuel sess u outer items_key n qs size)
    as [Hnil | (tl & Hr & Htl)].
  { unfold requests in Hq. rewrite Hnil in Hq. by apply elem_of_nil in Hq. }
  rewrite Hr, requests_emit_page in Hq.
  apply elem_of_cons in Hq as [-> | Hq]; [by exists qs |].
  destruct Htl as [(e & -> & _) | (_ & start & step & size' & _ & ->)];
    [by apply elem_of_nil in Hq |].
  apply IH in Hq as (qs' & -> & Hqs'). exists qs'. split; [done |].
  intros k Hk. rewrite (Hqs' k Hk). by apply lookup_insert_ne.
Qed.

Lemma builds_loop_requests_shape (fuel : nat) (sess : session) (u : string) (n : nat)
    (qs : gmap string qsval) (size : json) (start : Z) (q : request) :
  qs_int qs "start-index" = Ok start →
  q ∈ requests (builds_loop fuel sess u n qs size) →
  ∃ qs', q = get_request u (Some qs') ∧
         ∀ k, k ≠ "start-index" → qs' !! k = qs !! k.
Proof.
  revert n qs size start. induction fuel as [|fuel IH]; intros n qs size start Hs Hq.
  { unfold requests in Hq. rewrite builds_loop_no_fuel in Hq.
    by apply elem_of_nil in Hq. }
  destruct (builds_loop_round fuel sess u n qs size start Hs)
    as [Hnil | (tl & Hr & Htl)].
  { unfold requests in Hq. rewrite Hnil in Hq. by apply elem_of_nil in Hq. }
  rewrite Hr, requests_emit_page in Hq.
  apply elem_of_cons in Hq as [-> | Hq]; [by exists qs |].
  destruct Htl as [(o & -> & _) | (_ & step & size' & ->)];
    [by apply elem_of_nil in Hq |].
  eapply IH in Hq as (qs' & -> & Hqs'); [| apply qs_int_insert_start].
  exists qs'. split; [done |].
  intros k Hk. rewrite (Hqs' k Hk). by apply lookup_insert_ne.
Qed.

Lemma lookup_set_if_list (k k' : string) (x : option (list string))
    (f : list string → string) (qs : gmap string qsval) :
  k ≠ k' → set_if_list k x f qs !! k' = qs !! k'.
Proof. intros H. destruct x as [[|y l]|]; simpl; try done. by apply lookup_insert_ne. Qed.

Lemma lookup_set_if (k k' : string) (b : bool) (v : qsval) (qs : gmap string qsval) :
  k ≠ k' → set_if k b v qs !! k' = qs !! k'.
Proof. intros H. destruct b; simpl; [by apply lookup_insert_ne | done]. Qed.

Lemma base_qs_max_result (max_result : Z) :
  base_qs max_result !! "max-result" = Some (QInt max_result).
Proof. unfold base_qs. apply lookup_insert_eq. Qed.

Lemma uniform_from_shape (u : string) (max_result : Z) (qs : gmap string qsval)
    (r : run json) :
  qs !! "max-result" = Some (QInt max_result) →
  (∀ q, q ∈ requests r →
     ∃ qs', q = get_request u (Some qs') ∧ ∀ k, k ≠ "start-index" → qs' !! k = qs !! k) →
  requests_uniform u max_result r.
Proof.
  intros Hmax Hshape q Hq. apply Hshape in Hq as (qs' & -> & Hqs').
  repeat split. cbn. unfold or_empty. cbn. by rewrite Hqs'.
Qed.

(** X10: every request of a paginated method is a GET that asks for
    JSON, goes to one and the same URL and carries the caller's
    [max_result]; the URL of [get_branch_results] ends in [/branch/None]
    when no branch name is given, and [get_builds] appends the plan key
    only when it is non-empty. *)
Theorem paginated_requests_uniform (c : client) (sess : session) (fuel : nat)
    (max_result : Z) (environment_id : Z) (plan_key : string)
    (plan_key' build_number branch_name build_state : option string)
    (expand labels issue_keys : option (list string))
    (enabled_only favorite include_all_states continuable : bool) :
  requests_uniform
    (_get_url c ("/rest/api/latest/deploy/environment/" +:+ pretty environment_id
                   +:+ "/results"))
    max_result (get_environment_results c sess environment_id max_result fuel) ∧
  requests_uniform (_get_url c "/rest/api/latest/plan") max_result
    (get_plans c sess expand max_result fuel) ∧
  requests_uniform (_get_url c ("/rest/api/latest/plan/" +:+ plan_key +:+ "/branch"))
    max_result (get_branches c sess plan_key enabled_only max_result fuel) ∧
  requests_uniform (get_results_url c plan_key' build_number) max_result
    (get_results c sess plan_key' build_number expand max_result fuel) ∧
  requests_uniform
    (_get_url c ("/rest/api/latest/result/" +:+ plan_key +:+ "/branch/"
                   +:+ default "None" branch_name))
    max_result
    (get_branch_results c sess plan_key branch_name expand favorite labels issue_keys
       include_all_states continuable build_state max_result fuel) ∧
  requests_uniform
    (match plan_key' with
     | Some k => if decide (k = "") then _get_url c "/rest/api/latest/result"
                 else _get_url c "/rest/api/latest/result" +:+ "/" +:+ k
     | None => _get_url c "/rest/api/latest/result"
     end)
    max_result (get_builds c sess plan_key' labels expand max_result fuel).
Proof.
  split; [| split; [| split; [| split; [| split]]]].
  - eapply uniform_from_shape; [| apply index_bounded_requests_shape].
    apply base_qs_max_result.
  - eapply uniform_from_shape; [| apply index_bounded_requests_shape].
    rewrite lookup_set_if_list by done. apply base_qs_max_result.
  - eapply uniform_from_shape; [| apply index_bounded_requests_shape].
    rewrite lookup_set_if by done. apply base_qs_max_result.
  - eapply uniform_from_shape; [| apply index_bounded_requests_shape].
    rewrite lookup_set_if_list by done. apply base_qs_max_result.
  - unfold get_branch_results.
    match goal with
    | |- context [attempt ?v _] => destruct v as [qs|e] eqn:Hv
    end; [| by intros q Hq%elem_of_nil].
    eapply uniform_from_shape; [| apply index_bounded_requests_shape].
    assert (∀ qs0 : gmap string qsval,
              qs0 !! "max-result" = Some (QInt max_result) →
              match build_state with
              | Some s0 =>
                  if str_truthy build_state
                  then if decide (s0 ∉ valid_build_states) then Raise build_state_error
                       else Ok (<["build_state" := QStr s0]> qs0)
                  else Ok qs0
              | None => Ok qs0
              end = Ok qs → qs !! "max-result" = Some (QInt max_result)) as Hstate.
    { intros qs0 H0 H. destruct build_state as [s0|]; [| by injection H as <-].
      destruct (str_truthy (Some s0)); [| by injection H as <-].
      case_decide; [done |]. injection H as <-. by rewrite lookup_insert_ne. }
    eapply Hstate; [| exact Hv].
    rewrite !lookup_set_if, !lookup_set_if_list, lookup_set_if, lookup_set_if_list by done.
    apply base_qs_max_result.
  - unfold get_builds.
    assert ((if str_truthy plan_key'
             then _get_url c BUILD_SERVICE +:+ "/" +:+ default "" plan_key'
             else _get_url c BUILD_SERVICE)
            = match plan_key' with
              | Some k => if decide (k = "") then _get_url c "/rest/api/latest/result"
                          else _get_url c "/rest/api/latest/result" +:+ "/" +:+ k
              | None => _get_url c "/rest/api/latest/result"
              end) as ->.
    { destruct plan_key' as [k|]; [| done]. cbn [str_truthy default].
      destruct (decide (k = "")) as [-> | Hk]; [done |].
      by rewrite (proj2 (String.eqb_neq k "")). }
    eapply uniform_from_shape;
      [| intros q; apply (builds_loop_requests_shape _ _ _ _ _ _ 0), (get_builds_start plan_key')].
    rewrite !lookup_set_if_list by done. apply base_qs_max_result.
Qed.

Lemma paginated_requests_uniform_witness :
  let q := get_request "http://localhost:8085/rest/api/latest/result/PRJ-PLAN/branch/None"
             (Some (base_qs 25)) in
  meth q = GET ∧ data q = ∅ ∧ params q !! "max-result" = Some (QInt 25).
Proof.
  cbv zeta.
  destruct (paginated_requests_uniform local_client
              (scripted (Some "results") "result" short_pages) 5 25 0 "PRJ-PLAN"
              None None None None None None None false false false false)
    as (_ & _ & _ & _ & H & _).
  destruct (H (get_request
                 "http://localhost:8085/rest/api/latest/result/PRJ-PLAN/branch/None"
                 (Some (base_qs 25)))) as (Hm & _ & _ & Hd & Hp).
  - vm_compute. apply elem_of_cons. by left.
  - split; [exact Hm |]. split; [exact Hd | exact Hp].
Defined.

(** *** Running out of rounds *)

Lemma index_bounded_out_of_fuel_test (fuel : nat) (sess : session) (u : string)
    (outer : option string) (items_key : string) (n : nat)
    (qs : gmap string qsval) (size : json) :
  outcome_of (index_bounded fuel sess u outer items_key n qs size) = OutOfFuel →
  ∃ start sz, qs_int qs "start-index" = Ok start ∧ as_int size = Ok sz ∧ start < sz.
Proof.
  destruct fuel as [|fuel]; cbn [index_bounded];
    (destruct (qs_int qs "start-index") as [start|e]; [| done]);
    (destruct (as_int size) as [sz|e]; [| done]);
    cbn [attempt]; (case_decide; [| done]); intros _; by exists start, sz.
Qed.

Lemma index_bounded_out_of_fuel_next (fuel : nat) (sess : session) (u : string)
    (outer : option string) (items_key : string) (n : nat)
    (qs : gmap string qsval) (size : json) :
  outcome_of (index_bounded (S fuel) sess u outer items_key n qs size) = OutOfFuel →
  ∃ start env size' step,
    qs_int qs "start-index" = Ok start ∧
    envelope_in outer (sess n (get_request u (Some qs))) = Ok env ∧
    getitem env "size" = Ok size' ∧
    int_field env "max-result" = Ok step ∧
    outcome_of (index_bounded fuel sess u outer items_key (S n)
                  (<["start-index" := QInt (start + step)]> qs) size') = OutOfFuel.
Proof.
  destruct (index_bounded_cases fuel sess u outer items_key n qs size)
    as [Hnil | [(items & e & ->) | (start & env & size' & items & step
          & Hq & Henv & Hsize & Hitems & Hstep & ->)]]; [| done |].
  - (* no event: the loop test failed or the loop was over *)
    cbn [index_bounded] in *.
    destruct (qs_int qs "start-index") as [start|e]; [| done].
    destruct (as_int size) as [sz|e]; [| done].
    cbn [attempt] in *. case_decide; [| done]. discriminate Hnil.
  - rewrite outcome_emit. intros H. exists start, env, size', step.
    by rewrite <- envelope_at_in.
Qed.

Lemma index_bounded_terminates (fuel : nat) (sess : session) (u : string)
    (outer : option string) (items_key : string) (bound : Z) (n : nat)
    (qs : gmap string qsval) (size : json) :
  well_paged outer sess bound →
  (∀ sz, as_int size = Ok sz → sz ≤ Z.max bound 1) →
  (∀ start, qs_int qs "start-index" = Ok start →
            (Z.to_nat (Z.max bound 1 - start) ≤ fuel)%nat) →
  outcome_of (index_bounded fuel sess u outer items_key n qs size) ≠ OutOfFuel.
Proof.
  intros Hwell. revert n qs size.
  induction fuel as [|fuel IH]; intros n qs size Hsize Hfuel Hout.
  - apply index_bounded_out_of_fuel_test in Hout as (start & sz & Hq & Hs & Hlt).
    specialize (Hsize _ Hs). specialize (Hfuel _ Hq). lia.
  - pose proof (index_bounded_out_of_fuel_test _ _ _ _ _ _ _ _ Hout)
      as (start & sz & Hq & Hs & Hlt).
    apply index_bounded_out_of_fuel_next in Hout
      as (start' & env & size' & step & Hq' & Henv & Hsz & Hstep & Hout).
    rewrite Hq in Hq'. injection Hq' as <-.
    destruct (Hwell _ _ _ Henv) as [Hstep1 Hbound].
    specialize (Hstep1 _ Hstep). specialize (Hsize _ Hs). specialize (Hfuel _ Hq).
    revert Hout. apply IH.
    + intros sz' Hsz'. etrans; [apply Hbound | lia].
      unfold int_field. by rewrite Hsz.
    + intros start' Hstart'. rewrite qs_int_insert_start in Hstart'.
      injection Hstart' as <-. lia.
Qed.

Lemma integer_paged_well_paged (outer : option string) (sess : session) (bound : Z) :
  integer_paged outer sess bound → well_paged outer sess bound.
Proof.
  intros Hint n q env Henv. destruct (Hint n q env Henv) as [Hstep Hsize].
  unfold int_field. split.
  - intros step H. destruct (getitem env "max-result") as [v|e]; [| done].
    destruct (Hstep v eq_refl) as (step' & -> & Hle). by injection H as <-.
  - intros sz H. destruct (getitem env "size") as [v|e]; [| done].
    destruct (Hsize v eq_refl) as (sz' & -> & Hle). by injection H as <-.
Qed.

(** X11: against a server whose envelopes always carry, where they carry
    them at all, an integer [max-result] of at least 1 and an integer
    [size] of at most [bound], each index-bounded method comes to an
    end, by finishing or by raising, within [max bound 1] rounds. *)
Theorem index_bounded_methods_terminate (c : client) (sess : session) (fuel : nat)
    (bound max_result : Z) (environment_id : Z) (plan_key : string)
    (plan_key' build_number branch_name build_state : option string)
    (expand labels issue_keys : option (list string))
    (enabled_only favorite include_all_states continuable : bool) :
  (Z.to_nat (Z.max bound 1) ≤ fuel)%nat →
  (integer_paged None sess bound →
   outcome_of (get_environment_results c sess environment_id max_result fuel) ≠ OutOfFuel) ∧
  (integer_paged (Some "plans") sess bound →
   outcome_of (get_plans c sess expand max_result fuel) ≠ OutOfFuel) ∧
  (integer_paged (Some "branches") sess bound →
   outcome_of (get_branches c sess plan_key enabled_only max_result fuel) ≠ OutOfFuel) ∧
  (integer_paged (Some "results") sess bound →
   outcome_of (get_results c sess plan_key' build_number expand max_result fuel)
     ≠ OutOfFuel) ∧
  (integer_paged (Some "results") sess bound →
   outcome_of (get_branch_results c sess plan_key branch_name expand favorite labels
                 issue_keys include_all_states continuable build_state max_result fuel)
     ≠ OutOfFuel).
Proof.
  intros Hfuel.
  assert (∀ sz, as_int (JNum 1) = Ok sz → sz ≤ Z.max bound 1) as Hone.
  { intros sz [= <-]. lia. }
  assert (∀ qs : gmap string qsval, qs_int qs "start-index" = Ok 0 →
            ∀ start, qs_int qs "start-index" = Ok start →
                     (Z.to_nat (Z.max bound 1 - start) ≤ fuel)%nat) as Hzero.
  { intros qs H0 start Hs. rewrite H0 in Hs. injection Hs as <-.
    by rewrite Z.sub_0_r. }
  split; [| split; [| split; [| split]]]; intros Hwell%integer_paged_well_paged.
  - eapply index_bounded_terminates; eauto. apply Hzero, qs_int_base.
  - eapply index_bounded_terminates; eauto. apply Hzero.
    rewrite qs_int_set_if_list by done. apply qs_int_base.
  - eapply index_bounded_terminates; eauto. apply Hzero.
    rewrite qs_int_set_if by done. apply qs_int_base.
  - eapply index_bounded_terminates; eauto. apply Hzero.
    rewrite qs_int_set_if_list by done. apply qs_int_base.
  - unfold get_branch_results.
    match goal with
    | |- context [attempt ?v _] => destruct v as [qs|e] eqn:Hv
    end; [| done].
    eapply index_bounded_terminates; eauto. apply Hzero.
    assert (∀ qs0 : gmap string qsval,
              qs_int qs0 "start-index" = Ok 0 →
              match build_state with
              | Some s0 =>
                  if str_truthy build_state
                  then if decide (s0 ∉ valid_build_states) then Raise build_state_error
                       else Ok (<["build_state" := QStr s0]> qs0)
                  else Ok qs0
              | None => Ok qs0
              end = Ok qs → qs_int qs "start-index" = Ok 0) as Hstate.
    { intros qs0 H0 H. destruct build_state as [s0|]; [| by injection H as <-].
      destruct (str_truthy (Some s0)); [| by injection H as <-].
      case_decide; [done |]. injection H as <-. by rewrite qs_int_insert_other. }
    eapply Hstate; [| exact Hv].
    rewrite !qs_int_set_if, !qs_int_set_if_list, qs_int_set_if, qs_int_set_if_list by done.
    apply qs_int_base.
Qed.

Lemma short_pages_integer_paged :
  integer_paged (Some "results") (scripted (Some "results") "result" short_pages) 3.
Proof.
  intros n q env Henv.
  destruct n as [|[|n]]; [| | discriminate Henv];
    injection Henv as <-; split; intros v [= <-]; eexists; (split; [reflexivity | lia]).
Qed.

Lemma index_bounded_methods_terminate_witness :
  outcome_of (get_results local_client (scripted (Some "results") "result" short_pages)
                (Some "PRJ-PLAN") None None 25 3) ≠ OutOfFuel.
Proof.
  destruct (index_bounded_methods_terminate local_client
              (scripted (Some "results") "result" short_pages) 3 3 25 0 ""
              (Some "PRJ-PLAN") None None None None None None false false false false)
    as (_ & _ & _ & H & _).
  - simpl. lia.
  - apply H, short_pages_integer_paged.
Defined.

(** A page size of zero: the cursor stays where it is. *)
Lemma index_bounded_stuck (fuel : nat) (u : string) (outer : option string)
    (items : list json) (size : Z) (n : nat) (qs : gmap string qsval) (current : json)
    (sz : Z) :
  1 ≤ size →
  qs_int qs "start-index" = Ok 0 →
  as_int current = Ok sz → 0 < sz →
  let r := index_bounded fuel
             (constant_server (page_response outer (envelope "plan" items size 0 0)))
             u outer "plan" n qs current in
  outcome_of r = OutOfFuel ∧
  yielded r = concat (replicate fuel items) ∧
  start_indexes r = replicate fuel (Some (QInt 0)).
Proof.
  intros Hsize. revert n qs current sz.
  induction fuel as [|fuel IH]; intros n qs current sz Hq Hs Hsz; cbv zeta.
  - cbn [index_bounded]. rewrite Hq, Hs. cbn [attempt]. by rewrite decide_True.
  - rewrite (index_bounded_step fuel _ u outer "plan" n qs current 0 sz
               (match outer with
                | Some k => JObj [(k, envelope "plan" items size 0 0)]
                | None => envelope "plan" items size 0 0
                end)
               (envelope "plan" items size 0 0) (JNum size) (JArr items) (JNum 0) items 0);
      try done.
    2:{ destruct outer as [k|]; [| done]. simpl. by rewrite decide_True. }
    destruct (IH (S n) (<["start-index" := QInt (0 + 0)]> qs) (JNum size) size)
      as (Ho & Hy & Hi); [apply qs_int_insert_start | done | lia |].
    rewrite outcome_emit. split; [exact Ho |]. split.
    + rewrite yielded_emit_page, Hy. done.
    + unfold start_indexes in *. rewrite requests_emit_page, fmap_cons, Hi.
      cbn [replicate]. f_equal. cbn. unfold or_empty. cbn.
      by apply qs_int_lookup.
Qed.

(** X12: when the server keeps answering with [max-result = 0] and a
    [size] of at least 1, [get_plans] never comes to an end: however many
    rounds it is given, it uses them all, asking for start-index 0 and
    yielding the same page again each time. *)
Theorem zero_page_size_never_ends (c : client) (expand : option (list string))
    (max_result : Z) (items : list json) (size : Z) (fuel : nat) :
  1 ≤ size →
  let sess := constant_server
                (page_response (Some "plans") (envelope "plan" items size 0 0)) in
  let r := get_plans c sess expand max_result fuel in
  outcome_of r = OutOfFuel ∧
  yielded r = concat (replicate fuel items) ∧
  start_indexes r = replicate fuel (Some (QInt 0)).
Proof.
  intros Hsize. cbv zeta. unfold get_plans.
  apply (index_bounded_stuck fuel _ (Some "plans") items size 0 _ (JNum 1) 1);
    [done | | done | lia].
  rewrite qs_int_set_if_list by done. apply qs_int_base.
Qed.

Lemma zero_page_size_never_ends_witness :
  let r := get_plans local_client
             (constant_server
                (page_response (Some "plans") (envelope "plan" [JStr "P-1"] 40 0 0)))
             None 25 3 in
  outcome_of r = OutOfFuel ∧
  yielded r = [JStr "P-1"; JStr "P-1"; JStr "P-1"] ∧
  start_indexes r = [Some (QInt 0); Some (QInt 0); Some (QInt 0)].
Proof.
  apply (zero_page_size_never_ends local_client None 25 [JStr "P-1"] 40 3). lia.
Defined.

(** ** The expand parameter *)

Lemma build_expand_empty_iff (expand : list string) :
  _build_expand expand = "" ↔ ∀ k, k ∈ expand → k ∉ allow_list.
Proof.
  unfold _build_expand.
  assert ((λ x, str_join "." ["results.result"; x])
            <$> elements (list_to_set expand ∩ valid_expands)
          = String.app "results.result."
              <$> elements (list_to_set expand ∩ valid_expands)) as -> by done.
  split.
  - intros Hempty k Hk Hallow.
    assert (k ∈ elements (list_to_set expand ∩ valid_expands)) as Hin
      by by apply elem_of_expand_set.
    destruct (elements (list_to_set expand ∩ valid_expands)) as [|k0 ks];
      [by apply elem_of_nil in Hin |].
    rewrite fmap_cons in Hempty.
    by apply str_join_nonempty in Hempty.
  - intros Hnone.
    destruct (elements (list_to_set expand ∩ valid_expands)) as [|k0 ks] eqn:Hks; [done |].
    assert (k0 ∈ elements (list_to_set expand ∩ valid_expands)) as Hin
      by (rewrite Hks; apply elem_of_cons; by left).
    apply elem_of_expand_set in Hin as [Hin Hallow]. by destruct (Hnone k0 Hin).
Qed.

Lemma lookup_expand_set (expand : option (list string)) (qs : gmap string qsval) :
  qs !! "expand" = None →
  set_if_list "expand" expand _build_expand qs !! "expand" = expand_sent expand.
Proof.
  intros H. destruct expand as [[|k l]|]; cbn; try done. by rewrite lookup_insert_eq.
Qed.

Lemma base_qs_no_expand (max_result : Z) : base_qs max_result !! "expand" = None.
Proof.
  unfold base_qs. rewrite lookup_insert_ne by done. by rewrite lookup_singleton_ne.
Qed.

(** X13: [get_plans], [get_results] and [get_builds] send an [expand]
    parameter with every request exactly when the caller gives a
    non-empty list of keys; its value is the empty string exactly when
    none of the keys is in the allow-list, so that a list of unknown keys
    is sent as [expand=] rather than left out. *)
Theorem expand_parameter_sent (c : client) (sess : session) (fuel : nat) (max_result : Z)
    (plan_key build_number : option string) (labels expand : option (list string)) :
  (∀ keys, _build_expand keys = "" ↔ ∀ k, k ∈ keys → k ∉ allow_list) ∧
  (∀ q, q ∈ requests (get_plans c sess expand max_result fuel) →
        params q !! "expand" = expand_sent expand) ∧
  (∀ q, q ∈ requests (get_results c sess plan_key build_number expand max_result fuel) →
        params q !! "expand" = expand_sent expand) ∧
  (∀ q, q ∈ requests (get_builds c sess plan_key labels expand max_result fuel) →
        params q !! "expand" = expand_sent expand).
Proof.
  split; [apply build_expand_empty_iff |].
  split; [| split]; intros q Hq.
  - apply index_bounded_requests_shape in Hq as (qs' & -> & Hqs').
    cbn. unfold or_empty. cbn. rewrite Hqs' by done.
    apply lookup_expand_set, base_qs_no_expand.
  - apply index_bounded_requests_shape in Hq as (qs' & -> & Hqs').
    cbn. unfold or_empty. cbn. rewrite Hqs' by done.
    apply lookup_expand_set, base_qs_no_expand.
  - unfold get_builds in Hq.
    eapply builds_loop_requests_shape in Hq as (qs' & -> & Hqs');
      [| apply (get_builds_start plan_key)].
    cbn. unfold or_empty. cbn. rewrite Hqs' by done.
    rewrite lookup_set_if_list by done.
    apply lookup_expand_set, base_qs_no_expand.
Qed.

Lemma expand_parameter_sent_witness :
  params (get_request "http://localhost:8085/rest/api/latest/plan"
            (Some (<["expand" := QStr ""]> (base_qs 25)))) !! "expand"
    = Some (QStr (_build_expand ["bogus"])).
Proof.
  destruct (expand_parameter_sent local_client
              (scripted (Some "plans") "plan" [echoing [JStr "P-1"] 1 25]) 3 25
              None None None (Some ["bogus"])) as (_ & H & _).
  apply (H (get_request "http://localhost:8085/rest/api/latest/plan"
              (Some (<["expand" := QStr ""]> (base_qs 25))))).
  vm_compute. apply elem_of_cons. by left.
Defined.

(** ** The requests of the label search *)

Lemma elem_of_requests {A} (r : run A) (q : request) :
  q ∈ requests r ↔ Request q ∈ events r.
Proof.
  unfold requests. rewrite list_elem_of_omap. split.
  - intros ([q'|a] & Hin & Heq); [| done]. by injection Heq as ->.
  - intros Hin. by exists (Request q).
Qed.

Lemma scan_spans_requests (spans : list (list node * node)) (rest : run build_ref)
    (q : request) :
  Request q ∈ events (scan_spans spans rest) → Request q ∈ events rest.
Proof.
  induction spans as [|[chain span] spans IH]; [done |].
  cbn [scan_spans]. intros Hq.
  destruct (find_parent "td" chain) as [cell|]; [| by apply IH].
  case_decide; [| by apply IH].
  destruct (extract_cell cell) as [r0|e]; cbn [attempt] in Hq;
    [| by apply elem_of_nil in Hq].
  rewrite events_emit in Hq. apply elem_of_cons in Hq as [[=] | Hq]. by apply IH.
Qed.

Section label_requests.

Variable BeautifulSoup : string → node.

Lemma label_pages_requests (fuel : nat) (sess : session) (u : string) (n : nat)
    (qs : gmap string qsval) (page_index : Z)
    (rest : nat → gmap string qsval → run build_ref) (q : request) :
  Request q ∈ events (label_pages BeautifulSoup fuel sess u n qs page_index rest) →
  (∃ i, page_index ≤ i ∧ q = get_request u (Some (<["pageIndex" := QInt i]> qs))) ∨
  (∃ n' i, Request q ∈ events (rest n' (<["pageIndex" := QInt i]> qs))).
Proof.
  revert n qs page_index.
  induction fuel as [|fuel IH]; intros n qs page_index Hq;
    [by apply elem_of_nil in Hq |].
  cbn [label_pages] in Hq. rewrite events_emit in Hq.
  apply elem_of_cons in Hq as [[= ->] | Hq].
  { left. exists page_index. split; [lia | done]. }
  destruct (_get_response sess n u (Some (<["pageIndex" := QInt page_index]> qs)))
    as [response|e]; cbn [attempt] in Hq; [| by apply elem_of_nil in Hq].
  apply scan_spans_requests in Hq.
  destruct (find "a" (Some ["nextLink"]) _); [| right; eauto].
  apply IH in Hq as [(i & Hi & ->) | (n' & i & Hq)].
  - left. exists i. split; [lia |]. by rewrite insert_insert_eq.
  - right. exists n', i. by rewrite insert_insert_eq in Hq.
Qed.

Lemma label_loop_requests (fuel : nat) (sess : session) (u : string)
    (labels : list string) (n : nat) (qs : gmap string qsval) (q : request) :
  Request q ∈ events (label_loop BeautifulSoup fuel sess u n qs labels) →
  ∃ label i qs',
    label ∈ labels ∧ 1 ≤ i ∧ q = get_request u (Some qs') ∧
    qs' !! "labelName" = Some (QStr label) ∧ qs' !! "pageIndex" = Some (QInt i).
Proof.
  revert n qs. induction labels as [|label labels IH]; intros n qs Hq;
    [by apply elem_of_nil in Hq |].
  cbn [label_loop] in Hq.
  apply label_pages_requests in Hq as [(i & Hi & ->) | (n' & i & Hq)].
  - exists label, i, (<["pageIndex" := QInt i]> (<["labelName" := QStr label]> qs)).
    split; [apply elem_of_cons; by left |]. split; [done |]. split; [done |].
    split; [| by apply lookup_insert_eq].
    rewrite lookup_insert_ne by done. by apply lookup_insert_eq.
  - apply IH in Hq as (label' & i' & qs' & Hin & Hrest).
    exists label', i', qs'. split; [apply elem_of_cons; by right | done].
Qed.

End label_requests.

(** X14: iterated with the default [labels=None], [get_builds_by_label]
    raises a type error before any request; given a list of labels, each
    of its requests is a GET to the label action that carries one of the
    given labels as [labelName] and a [pageIndex] of at least 1: an empty
    list of labels sends nothing. *)
Theorem label_search_requests (BeautifulSoup : string → node) (c : client)
    (sess : session) (fuel : nat) :
  get_builds_by_label BeautifulSoup c sess None fuel = Run [] (Raised TypeError) ∧
  get_builds_by_label BeautifulSoup c sess (Some []) fuel = Run [] Done ∧
  ∀ labels q,
    q ∈ requests (get_builds_by_label BeautifulSoup c sess (Some labels) fuel) →
    meth q = GET ∧
    url q = _get_url c "/build/label/viewBuildsForLabel.action" ∧
    ∃ label i, label ∈ labels ∧ 1 ≤ i ∧
               params q !! "labelName" = Some (QStr label) ∧
               params q !! "pageIndex" = Some (QInt i).
Proof.
  split; [done |]. split; [done |].
  intros labels q Hq. apply elem_of_requests in Hq.
  unfold get_builds_by_label in Hq.
  apply label_loop_requests in Hq as (label & i & qs' & Hin & Hi & -> & Hl & Hp).
  split; [done |]. split; [done |]. by exists label, i.
Qed.

Lemma label_search_requests_witness :
  let q := get_request "http://localhost:8085/build/label/viewBuildsForLabel.action"
             (Some {[ "labelName" := QStr "nightly"; "pageIndex" := QInt 1 ]}) in
  meth q = GET ∧
  ∃ label i, label ∈ ["nightly"] ∧ 1 ≤ i ∧
             params q !! "labelName" = Some (QStr label) ∧
             params q !! "pageIndex" = Some (QInt i).
Proof.
  cbv zeta.
  destruct (label_search_requests (λ _, results_page [full_row]) local_client html_server 2)
    as (_ & _ & H).
  destruct (H ["nightly"]
              (get_request "http://localhost:8085/build/label/viewBuildsForLabel.action"
                 (Some {[ "labelName" := QStr "nightly"; "pageIndex" := QInt 1 ]})))
    as (Hm & _ & Hl).
  - vm_compute. apply elem_of_cons. by left.
  - split; [exact Hm | exact Hl].
Defined.

(** ** Keys *)

Lemma string_app_assoc (a b c : string) : (a +:+ b) +:+ c = a +:+ (b +:+ c).
Proof.
  induction a as [|ch a IH]; [done |].
  change (String ch ((a +:+ b) +:+ c) = String ch (a +:+ (b +:+ c))). by f_equal.
Qed.

Lemma has_char_app (ch : ascii) (a b : string) :
  has_char ch (a +:+ b) = has_char ch a || has_char ch b.
Proof.
  induction a as [|x a IH]; [done |].
  change (String x a +:+ b) with (String x (a +:+ b)). cbn [has_char].
  rewrite IH. by rewrite orb_assoc.
Qed.

Lemma basename_from_no_slash (s pre : string) :
  has_char "/" pre = false →
  has_char "/" (basename_from (pre +:+ s) s) = false.
Proof.
  revert pre. induction s as [|a s IH]; intros pre Hpre; cbn [basename_from].
  - rewrite has_char_app, Hpre. done.
  - destruct (Ascii.eqb a "/") eqn:Ha.
    + by apply (IH "").
    + replace (pre +:+ String a s) with ((pre +:+ String a "") +:+ s)
        by by rewrite string_app_assoc.
      apply IH. rewrite has_char_app, Hpre. cbn. by rewrite Ha.
Qed.

Lemma basename_no_slash (p : string) : has_char "/" (basename p) = false.
Proof. apply (basename_from_no_slash p ""). done. Qed.

Lemma basename_from_plain (s cur : string) :
  has_char "/" s = false → basename_from cur s = cur.
Proof.
  revert cur. induction s as [|a s IH]; intros cur; [done |]. cbn.
  intros [Ha Hs]%orb_false_elim. rewrite Ha. by apply IH.
Qed.

Lemma basename_from_segment (dir key cur : string) :
  has_char "/" key = false →
  basename_from cur (dir +:+ "/" +:+ key) = key.
Proof.
  intros Hkey. revert cur. induction dir as [|a dir IH]; intros cur.
  - change ("" +:+ "/" +:+ key) with (String "/" key). cbn.
    by apply basename_from_plain.
  - change (String a dir +:+ "/" +:+ key) with (String a (dir +:+ "/" +:+ key)).
    cbn [basename_from]. destruct (Ascii.eqb a "/"); apply IH.
Qed.

Lemma basename_segment (dir key : string) :
  has_char "/" key = false → basename (dir +:+ "/" +:+ key) = key.
Proof. apply basename_from_segment. Qed.

(** X15: no key of a record that [get_builds_by_label] yields contains
    a slash. *)
Theorem label_keys_without_slash (BeautifulSoup : string → node) (c : client)
    (sess : session) (labels : option (list string)) (fuel : nat) (r : build_ref) :
  Yield r ∈ events (get_builds_by_label BeautifulSoup c sess labels fuel) →
  has_char "/" (projectKey r) = false ∧
  has_char "/" (planKey r) = false ∧
  has_char "/" (buildKey r) = false.
Proof.
  unfold get_builds_by_label. destruct labels as [ls|]; intros Hr;
    [| by apply elem_of_nil in Hr].
  apply label_loop_yield in Hr as (k & q & _ & Hex).
  destruct Hex as (chain & span & cell & prj & plan & build & more & p & q' & b & H).
  destruct H as (_ & _ & _ & _ & _ & _ & _ & _ & _ & _ & ->).
  cbn. repeat split; apply basename_no_slash.
Qed.

Lemma label_keys_without_slash_witness :
  has_char "/" "PRJ-PLAN-7" = false.
Proof.
  apply (label_keys_without_slash (λ _, results_page [full_row]) local_client
           html_server (Some ["nightly"]) 2
           {| projectKey := "PRJ"; planKey := "PRJ-PLAN"; buildKey := "PRJ-PLAN-7" |}).
  vm_compute. apply elem_of_cons. right. apply elem_of_cons. by left.
Defined.

(** X16: from a cell whose first three links point to paths that end in
    a slash-free segment, the record extracted consists of those three
    segments, whatever comes before them in the path and whatever links
    follow in the cell. *)
Theorem extract_cell_last_segments (cell prj plan build : node) (more : list node)
    (d1 d2 d3 k1 k2 k3 : string) :
  find_all "a" None cell = prj :: plan :: build :: more →
  attr prj "href" = Ok (d1 +:+ "/" +:+ k1) →
  attr plan "href" = Ok (d2 +:+ "/" +:+ k2) →
  attr build "href" = Ok (d3 +:+ "/" +:+ k3) →
  has_char "/" k1 = false → has_char "/" k2 = false → has_char "/" k3 = false →
  extract_cell cell = Ok {| projectKey := k1; planKey := k2; buildKey := k3 |}.
Proof.
  intros Hlinks H1 H2 H3 Hk1 Hk2 Hk3. unfold extract_cell.
  rewrite Hlinks. cbn [take]. rewrite H1, H2, H3. cbn [rbind].
  by rewrite !basename_segment.
Qed.

Lemma extract_cell_last_segments_witness :
  extract_cell (Tag "td" [] []
                  (status_icon :: (link <$> ["/browse/PRJ"; "/browse/PRJ-PLAN";
                                             "/browse/PRJ-PLAN-7"; "/browse/other"])))
    = Ok {| projectKey := "PRJ"; planKey := "PRJ-PLAN"; buildKey := "PRJ-PLAN-7" |}.
Proof.
  apply (extract_cell_last_segments _ (link "/browse/PRJ") (link "/browse/PRJ-PLAN")
           (link "/browse/PRJ-PLAN-7") [link "/browse/other"]
           "/browse" "/browse" "/browse"); reflexivity.
Defined.

(** ** Indexing the spans of a variable cell *)

Lemma py_index_out_of_range {A} (l : list A) (i : Z) :
  Z.of_nat (length l) ≤ i ∨ i < - Z.of_nat (length l) →
  py_index l i = Raise IndexError.
Proof.
  intros H. unfold py_index.
  destruct (Z.leb_spec 0 i) as [Hpos | Hneg].
  - destruct H as [H | H]; [| lia].
    rewrite (proj2 (Z.ltb_ge i 0)) by lia.
    rewrite lookup_ge_None_2; [done | lia].
  - destruct H as [H | H]; [lia |].
    by rewrite (proj2 (Z.ltb_lt (Z.of_nat (length l) + i) 0)) by lia.
Qed.

Lemma py_index_negative {A} (l : list A) (i : Z) :
  - Z.of_nat (length l) ≤ i < 0 →
  py_index l i = py_index l (Z.of_nat (length l) + i).
Proof.
  intros H. unfold py_index.
  rewrite (proj2 (Z.leb_gt 0 i)) by lia.
  by rewrite (proj2 (Z.leb_le 0 (Z.of_nat (length l) + i))) by lia.
Qed.

(** X17: in [get_branch_variables] the index counts within the spans of
    the first cell only: an index at or beyond their number, or below
    minus their number, raises an index error even when a later cell has
    enough spans; an index from minus their number up to -1 counts from
    the end of the first cell's spans. *)
Theorem get_branch_variables_index (BeautifulSoup : string → node)
    (sess : session) (n : nat) (u : string) (cell : node) (later : list node) :
  find_all "td" (Some ["variable-value-container"])
    (BeautifulSoup (text (sess n (plain_get u)))) = cell :: later →
  let len := Z.of_nat (length (find_all "span" None cell)) in
  (∀ i, len ≤ i ∨ i < - len →
        get_branch_variables BeautifulSoup sess n u i = Raise IndexError) ∧
  (∀ i, - len ≤ i < 0 →
        get_branch_variables BeautifulSoup sess n u i
          = get_branch_variables BeautifulSoup sess n u (len + i)).
Proof.
  intros Hcells. cbv zeta. unfold get_branch_variables. rewrite Hcells. split.
  - intros i Hi. by rewrite py_index_out_of_range.
  - intros i Hi. by rewrite py_index_negative.
Qed.

Lemma get_branch_variables_index_witness :
  get_branch_variables (λ _, variables_page) html_server 0 "http://x/vars" 2
    = Raise IndexError ∧
  get_branch_variables (λ _, variables_page) html_server 0 "http://x/vars" (-1)
    = get_branch_variables (λ _, variables_page) html_server 0 "http://x/vars" 1.
Proof.
  destruct (get_branch_variables_index (λ _, variables_page) html_server 0 "http://x/vars"
              (variable_cell ["1"; "on"]) [variable_cell ["2"]]) as [Hout Hneg];
    [reflexivity |].
  split.
  - apply (Hout 2). left. vm_compute. discriminate.
  - apply (Hneg (-1)). vm_compute. split; [discriminate | reflexivity].
Defined.

(** ** The last page of [get_builds] *)

Lemma issued_only_yields {A} (items : list A) : issued (Yield <$> items) = 0%nat.
Proof.
  rewrite <- (app_nil_r (Yield <$> items)). by rewrite issued_yields.
Qed.

Lemma builds_loop_ends_at_empty_size (fuel : nat) (sess : session) (u : string)
    (n : nat) (qs : gmap string qsval) (size : json)
    (pre post : list (event json)) (q : request) (env : json) :
  events (builds_loop fuel sess u n qs size) = pre ++ Request q :: post →
  envelope_in (Some "results") (sess (n + issued pre)%nat q) = Ok env →
  getitem env "size" = Ok (JNum 0) →
  issued post = 0%nat ∧ outcome_of (builds_loop fuel sess u n qs size) ≠ OutOfFuel.
Proof.
  revert n qs size pre.
  induction fuel as [|fuel IH]; intros n qs size pre Hev Henv Hsize.
  { rewrite builds_loop_no_fuel in Hev. by destruct pre. }
  destruct (builds_loop_cases fuel sess u n qs size)
    as [Hnil | [(items & e & Hr) | [(start & env0 & size0 & echoed
          & Hq & Henv0 & Hsize0 & Hecho & Hlt & Hr)
       | (start & env0 & size0 & echoed & items & step
          & Hq & Henv0 & Hsize0 & Hecho & Hlt & Hitems & Hstep & Hr)]]].
  - rewrite Hnil in Hev. by destruct pre.
  - rewrite Hr in Hev |- *. cbn [events] in Hev.
    destruct pre as [|e0 pre]; injection Hev as _ Hev.
    + rewrite <- Hev. split; [apply issued_only_yields | done].
    + by apply yields_no_request in Hev.
  - rewrite Hr in Hev |- *. cbn [events] in Hev.
    destruct pre as [|e0 pre]; injection Hev as _ Hev.
    + by rewrite <- Hev.
    + by destruct pre.
  - rewrite Hr in Hev |- *. rewrite events_emit in Hev. rewrite outcome_emit.
    destruct pre as [|e0 pre].
    + injection Hev as <- Hev.
      rewrite Nat.add_0_r, <- envelope_at_in, Henv0 in Henv. injection Henv as <-.
      rewrite Hsize0 in Hsize. injection Hsize as ->.
      assert (builds_loop fuel sess u (S n)
                (<["start-index" := QInt (start + step)]> qs) (JNum 0) = finish Done) as Hend
        by by destruct fuel.
      rewrite Hend in Hev |- *. cbn [events finish] in Hev. rewrite app_nil_r in Hev.
      rewrite <- Hev. split; [apply issued_only_yields | done].
    + injection Hev as <- Hev. apply yields_split in Hev as (pre' & -> & Hev).
      rewrite issued_request, issued_yields in Henv.
      replace (n + S (issued pre'))%nat with (S n + issued pre')%nat in Henv by lia.
      by eapply IH.
Qed.

(** X18: in [get_builds] an answer whose envelope says [size = 0] is
    the last one: after it no further request is issued and the
    generator is over, however many rounds it was given. *)
Theorem get_builds_ends_at_empty_size (c : client) (sess : session)
    (plan_key : option string) (labels expand : option (list string))
    (max_result : Z) (fuel : nat) :
  ends_at_empty_size sess (get_builds c sess plan_key labels expand max_result fuel).
Proof.
  intros pre q post env Hev Henv Hsize. unfold get_builds in *.
  by eapply (builds_loop_ends_at_empty_size _ _ _ 0).
Qed.

Lemma get_builds_ends_at_empty_size_witness :
  outcome_of (get_builds local_client
                (scripted (Some "results") "result"
                   [echoing [JStr "B-1"] 1 25; echoing [] 0 25; echoing [JStr "B-9"] 1 25])
                None None None 25 2) ≠ OutOfFuel.
Proof.
  set (sess := scripted (Some "results") "result"
                 [echoing [JStr "B-1"] 1 25; echoing [] 0 25; echoing [JStr "B-9"] 1 25]).
  set (u := "http://localhost:8085/rest/api/latest/result").
  destruct (get_builds_ends_at_empty_size local_client sess None None None 25 2
              [Request (get_request u (Some (base_qs 25))); Yield (JStr "B-1")]
              (get_request u (Some (<["start-index" := QInt 1]> (base_qs 25)))) []
              (envelope "result" [] 0 25 1)) as [_ H].
  - vm_compute. reflexivity.
  - vm_compute. reflexivity.
  - vm_compute. reflexivity.
  - exact H.
Defined.

(** ** Filters *)

Lemma validated_lookup (build_state : option string) (qs0 qs : gmap string qsval)
    (k : string) :
  k ≠ "build_state" →
  match build_state with
  | Some s0 =>
      if str_truthy build_state
      then if decide (s0 ∉ valid_build_states) then Raise build_state_error
           else Ok (<["build_state" := QStr s0]> qs0)
      else Ok qs0
  | None => Ok qs0
  end = Ok qs →
  qs !! k = qs0 !! k.
Proof.
  intros Hk H. destruct build_state as [s0|]; [| by injection H as <-].
  destruct (str_truthy (Some s0)); [| by injection H as <-].
  case_decide; [done |]. injection H as <-. by rewrite lookup_insert_ne.
Qed.

Lemma lookup_set_if_list_eq (k : string) (x : option (list string))
    (qs : gmap string qsval) :
  qs !! k = None → set_if_list k x (str_join ",") qs !! k = list_sent x.
Proof.
  intros H. destruct x as [[|y l]|]; cbn; try done. by rewrite lookup_insert_eq.
Qed.

Lemma lookup_set_if_eq (k : string) (b : bool) (v : qsval) (qs : gmap string qsval) :
  qs !! k = None → set_if k b v qs !! k = flag_sent b v.
Proof. intros H. destruct b; cbn; [by rewrite lookup_insert_eq | done]. Qed.

Lemma base_qs_other (max_result : Z) (k : string) :
  k ≠ "max-result" → k ≠ "start-index" → base_qs max_result !! k = None.
Proof.
  intros H1 H2. unfold base_qs. rewrite lookup_insert_ne by done.
  by rewrite lookup_singleton_ne.
Qed.

(** X19: the filters of a call go with every request of the iteration,
    not only with the first: [enabledOnly=true] in [get_branches] when
    the flag is set, the comma-joined labels in [get_builds], and in
    [get_branch_results] the labels, the issue keys and the three flags;
    a filter that is not given, or an empty list, is not sent. *)
Theorem filters_sent_with_every_request (c : client) (sess : session) (fuel : nat)
    (max_result : Z) (plan_key : string)
    (plan_key' branch_name build_state : option string)
    (expand labels issue_keys : option (list string))
    (enabled_only favorite include_all_states continuable : bool) :
  (∀ q, q ∈ requests (get_branches c sess plan_key enabled_only max_result fuel) →
        params q !! "enabledOnly" = flag_sent enabled_only (QStr "true")) ∧
  (∀ q, q ∈ requests (get_builds c sess plan_key' labels expand max_result fuel) →
        params q !! "label" = list_sent labels) ∧
  (∀ q, q ∈ requests
              (get_branch_results c sess plan_key branch_name expand favorite labels
                 issue_keys include_all_states continuable build_state max_result fuel) →
        params q !! "label" = list_sent labels ∧
        params q !! "issueKey" = list_sent issue_keys ∧
        params q !! "favorite" = flag_sent favorite (QBool true) ∧
        params q !! "includeAllStates" = flag_sent include_all_states (QBool true) ∧
        params q !! "continuable" = flag_sent continuable (QBool true)).
Proof.
  split; [| split]; intros q Hq.
  - apply index_bounded_requests_shape in Hq as (qs' & -> & Hqs').
    cbn. unfold or_empty. cbn. rewrite Hqs' by done.
    by apply lookup_set_if_eq, base_qs_other.
  - unfold get_builds in Hq.
    eapply builds_loop_requests_shape in Hq as (qs' & -> & Hqs');
      [| apply (get_builds_start plan_key')].
    cbn. unfold or_empty. cbn. rewrite Hqs' by done.
    apply lookup_set_if_list_eq. rewrite lookup_set_if_list by done.
    by apply base_qs_other.
  - unfold get_branch_results in Hq.
    match type of Hq with
    | _ ∈ requests (attempt ?v _) => destruct v as [qs|e] eqn:Hv
    end; [| by apply elem_of_nil in Hq].
    cbn [attempt] in Hq.
    apply index_bounded_requests_shape in Hq as (qs' & -> & Hqs').
    cbn. unfold or_empty. cbn. rewrite !Hqs' by done.
    split; [| split; [| split; [| split]]].
    + rewrite (validated_lookup build_state _ qs "label" ltac:(done) Hv).
      rewrite !lookup_set_if, lookup_set_if_list by done.
      apply lookup_set_if_list_eq.
      rewrite lookup_set_if, lookup_set_if_list by done. by apply base_qs_other.
    + rewrite (validated_lookup build_state _ qs "issueKey" ltac:(done) Hv).
      rewrite !lookup_set_if by done. apply lookup_set_if_list_eq.
      rewrite lookup_set_if_list, lookup_set_if, lookup_set_if_list by done.
      by apply base_qs_other.
    + rewrite (validated_lookup build_state _ qs "favorite" ltac:(done) Hv).
      rewrite !lookup_set_if, !lookup_set_if_list by done.
      apply lookup_set_if_eq. rewrite lookup_set_if_list by done. by apply base_qs_other.
    + rewrite (validated_lookup build_state _ qs "includeAllStates" ltac:(done) Hv).
      rewrite lookup_set_if by done. apply lookup_set_if_eq.
      rewrite !lookup_set_if_list, lookup_set_if, lookup_set_if_list by done.
      by apply base_qs_other.
    + rewrite (validated_lookup build_state _ qs "continuable" ltac:(done) Hv).
      apply lookup_set_if_eq.
      rewrite lookup_set_if, !lookup_set_if_list, lookup_set_if, lookup_set_if_list by done.
      by apply base_qs_other.
Qed.

Lemma filters_sent_with_every_request_witness :
  params (get_request "http://localhost:8085/rest/api/latest/result"
            (Some (<["start-index" := QInt 2]>
                     (<["label" := QStr "nightly,green"]> (base_qs 25))))) !! "label"
    = Some (QStr "nightly,green").
Proof.
  destruct (filters_sent_with_every_request local_client
              (scripted (Some "results") "result"
                 [echoing [JStr "B-1"; JStr "B-2"] 2 25; echoing [] 0 25])
              5 25 "" None None None None (Some ["nightly"; "green"]) None
              false false false false) as (_ & H & _).
  apply (H (get_request "http://localhost:8085/rest/api/latest/result"
              (Some (<["start-index" := QInt 2]>
                       (<["label" := QStr "nightly,green"]> (base_qs 25)))))).
  vm_compute. apply elem_of_cons. right. apply elem_of_cons. by left.
Defined.
